(** * Tempotown orchestrator client: a model of package [tempotown]

    The hook is a long-lived MCP client.  Its Go source keeps all mutable
    state in one [TempotownHook] struct shared by several goroutines and
    guarded by one mutex; the sections executed under that mutex, together
    with the few atomic operations outside it, are the atomic steps of the
    model below.  Each step is a function on a [World]: the hook struct, the
    heap of response channels it aliases, the connections it dialled, a
    clock, the lifetime context and the logger output. *)

From Stdlib Require Import ZArith String List Lia Bool.
From Stdlib Require Import Floats.SpecFloat.
From stdpp Require Import gmap strings list fin_maps sorting.

Set Warnings "-register-all".
Local Open Scope string_scope.
Local Open Scope Z_scope.

(** ** Go values *)

(** A value of Go type [any] ([interface{}]), restricted to the dynamic
    types this program stores in one: the argument maps it builds
    ([string], [int], [[]string], [map[string]any]) and what
    [encoding/json] puts into an [interface{}] target ([nil] for null,
    [bool], [float64] for every number, [string], [[]any],
    [map[string]any]). *)
Inductive any :=
| AnyNil
| AnyBool (b : bool)
| AnyInt (n : Z)
| AnyFloat64 (f : spec_float)
| AnyString (s : string)
| AnyStrings (l : list string)
| AnySlice (l : list any)
| AnyMap (m : gmap string any).

(** The type assertion [v.(float64)]. *)
Definition assert_float64 (v : any) : option spec_float :=
  match v with
  | AnyFloat64 f => Some f
  | _ => None
  end.

Definition min_int64 : Z := - 2 ^ 63.
Definition max_int64 : Z := 2 ^ 63 - 1.

(** Two's complement wrap-around of a 64-bit signed integer. *)
Definition wrap_int64 (z : Z) : Z := (z + 2 ^ 63) mod 2 ^ 64 - 2 ^ 63.

(** The conversion [int64(f)] of a [float64]: the fraction is discarded
    (truncation towards zero).  For a value that does not fit the Go
    specification leaves the result to the implementation; this is the amd64
    one, the smallest [int64]. *)
Definition int64_of_float64 (f : spec_float) : Z :=
  match f with
  | S754_zero _ => 0
  | S754_finite s m e =>
      let t := if (0 <=? e) then Z.shiftl (Z.pos m) e
               else Z.shiftr (Z.pos m) (- e) in
      let v := if s then - t else t in
      if (min_int64 <=? v) && (v <=? max_int64) then v else min_int64
  | _ => min_int64
  end.

(** The [float64] holding a (small) integer, as the decoder produces it for
    an integer literal. *)
Definition float64_of_Z (z : Z) : spec_float :=
  match z with
  | Z0 => S754_zero false
  | Zpos p => S754_finite false p 0
  | Zneg p => S754_finite true p 0
  end.

(** ** Buffered channels *)

(** A Go channel made by [make(chan A, cap)]: its buffer, oldest element
    first, its capacity, and whether [close] was called on it. *)
Record chan (A : Type) := mkChan {
  chan_buf : list A;
  chan_cap : nat;
  chan_closed : bool;
}.
Arguments mkChan {A} _ _ _.
Arguments chan_buf {A} _.
Arguments chan_cap {A} _.
Arguments chan_closed {A} _.

Definition make_chan {A} (cap : nat) : chan A := mkChan [] cap false.

Definition chan_full {A} (c : chan A) : bool :=
  (chan_cap c <=? length (chan_buf c))%nat.

(** [select { case c <- x: ... default: ... }]: the send happens only when
    the buffer has room (no receiver is modelled as parked on the channel). *)
Definition try_send {A} (c : chan A) (x : A) : option (chan A) :=
  if chan_full c then None
  else Some (mkChan (chan_buf c ++ [x]) (chan_cap c) (chan_closed c)).

(** [x := <-c] when a value is buffered. *)
Definition try_recv {A} (c : chan A) : option (A * chan A) :=
  match chan_buf c with
  | [] => None
  | x :: rest => Some (x, mkChan rest (chan_cap c) (chan_closed c))
  end.

(** ** Configuration and protocol types *)

Definition HookName : string := "tempotown".
Definition DefaultRole : string := "coder".

(** [time.Duration] counts nanoseconds. *)
Definition Second : Z := 1000000000.
Definition DefaultPollInterval : Z := 5 * Second.
Definition ReconnectDelay : Z := 5 * Second.
Definition DialTimeout : Z := 10 * Second.
Definition CallTimeout : Z := 30 * Second.

Record Config := mkConfig {
  Endpoint : string;
  Role : string;
  Capabilities : list string;
  PollIntervalSeconds : Z;
}.

Record Content := mkContent {
  content_Type : string;
  content_Text : string;
}.

Record ToolCallResult := mkToolCallResult {
  result_Content : list Content;
  result_IsError : bool;
}.

Record FeedbackPayload := mkFeedback {
  fb_Message : string;
  fb_Source : string;
  fb_TaskID : string;
  fb_Metadata : gmap string any;
}.

Record RPCError := mkRPCError {
  err_Code : Z;
  err_Message : string;
}.

(** [json.RawMessage]: the undecoded bytes of one JSON value. *)
Abbreviation RawMessage := string (only parsing).

Record Response := mkResponse {
  resp_JSONRPC : string;
  resp_ID : any;
  resp_Result : RawMessage;
  resp_Error : option RPCError;
}.

Record Implementation := mkImplementation {
  impl_Name : string;
  impl_Version : string;
}.

(** [ClientCapability]: two optional capabilities; [Roots], when present,
    holds its [ListChanged] flag. *)
Record ClientCapability := mkClientCapability {
  cap_Roots : option bool;
  cap_Sampling : option unit;
}.

Record InitializeParams := mkInitializeParams {
  ProtocolVersion : string;
  ClientInfo : Implementation;
  init_Capabilities : ClientCapability;
}.

Record ToolCallParams := mkToolCallParams {
  tool_Name : string;
  tool_Arguments : gmap string any;
}.

(** What [call] and [sendNotification] are given as [params]; the frame
    carries its [json.Marshal] encoding, kept here as the value encoded. *)
Inductive Params :=
| ParamsNil
| ParamsInitialize (p : InitializeParams)
| ParamsToolCall (p : ToolCallParams).

(** An outbound frame: a [Request] (with its [id]) or a [Notification]
    (which has no [id] field at all). *)
Inductive Frame :=
| FrameRequest (jsonrpc : string) (id : Z) (method : string) (params : Params)
| FrameNotification (jsonrpc : string) (method : string) (params : Params).

(** ** Errors *)

Inductive ctx_error := Canceled | DeadlineExceeded.

Inductive decode_error :=
| ErrEOF            (* io.EOF *)
| ErrClosed         (* net.ErrClosed *)
| ErrSyntax         (* a JSON syntax or type error: a malformed frame *)
| ErrRead.          (* any other read failure, such as a peer reset *)

(** The errors the hook builds, by the format string that builds them. *)
Inductive error :=
| ErrDial                               (* "dial failed: %w" *)
| ErrInitialize (e : error)             (* "initialize failed: %w" *)
| ErrRegister (e : error)               (* "register failed: %w" *)
| ErrEncode                             (* the encoder's write error *)
| ErrContext (e : ctx_error)            (* ctx.Err() *)
| ErrRPC (code : Z) (message : string)  (* "RPC error %d: %s" *)
| ErrRequestTimeout                     (* "request timeout" *)
| ErrUnmarshalResult                    (* "unmarshal result: %w" *)
| ErrToolText (text : string)           (* "tool error: %s" *)
| ErrTool.                              (* "tool error" *)

(** ** The host's plugin interface *)

(** Modelled from the spec: the event and message types of the host package
    [github.com/charmbracelet/crush/plugin], which this repository imports
    and does not contain.  A message event has one of three discriminators
    and carries a message whose role is one of four; a message lists its
    tool calls in order. *)
Inductive MessageEventType := MessageCreated | MessageUpdated | MessageDeleted.

Inductive MessageRole :=
| MessageRoleUser
| MessageRoleAssistant
| MessageRoleSystem
| MessageRoleTool.

Record ToolCallInfo := mkToolCall {
  tc_ID : string;
  tc_Name : string;
  tc_Input : string;
  tc_Finished : bool;
}.

Record ToolResultInfo := mkToolResult {
  tr_ToolCallID : string;
  tr_Name : string;
  tr_Content : string;
  tr_IsError : bool;
}.

Record Message := mkMessage {
  msg_ID : string;
  msg_SessionID : string;
  msg_Role : MessageRole;
  msg_Content : string;
  msg_ToolCalls : list ToolCallInfo;
  msg_ToolResults : list ToolResultInfo;
}.

Record MessageEvent := mkEvent {
  ev_Type : MessageEventType;
  ev_Message : Message;
}.

(** ** The logger *)

Inductive Level := LevelDebug | LevelInfo | LevelWarn | LevelError.

(** One record written through [h.logger]: level, message and the key/value
    attributes given with it. *)
Record LogEntry := mkLog {
  log_Level : Level;
  log_Msg : string;
  log_Attrs : list (string * string);
}.

(** ** [encoding/json] *)

(** The three uses of [json.Unmarshal], one per target type.  The library is
    not part of the program; each function stands for its behaviour on that
    target and answers [None] where [Unmarshal] returns an error. *)
Class EncodingJSON := {
  (** into a [ToolCallResult] *)
  unmarshal_ToolCallResult : RawMessage -> option ToolCallResult;
  (** into [struct { AgentID string `json:"agent_id"` }]: the [AgentID] read,
      empty when the object has no such key *)
  unmarshal_AgentID : string -> option string;
  (** into [struct { Items []FeedbackPayload `json:"items"` }] *)
  unmarshal_Items : string -> option (list FeedbackPayload);
}.

(** ** The hook and the world around it *)

Abbreviation ChanId := nat (only parsing).
Abbreviation ConnId := nat (only parsing).

(** A dialled TCP connection as the hook sees it: whether [Close] was called
    on it, and the frames written to it, oldest first. *)
Record Conn := mkConn {
  conn_endpoint : string;
  conn_closed : bool;
  conn_sent : list Frame;
}.

(** The [TempotownHook] struct.  [conn], [encoder] and [decoder] hold the
    connection they were made from; [pending] maps a request id to the
    address of the caller's response channel; [requestID] is the
    [atomic.Int64] and [connected] the [atomic.Bool]. *)
Record TempotownHook := mkHook {
  cfg : Config;
  conn : option ConnId;
  encoder : option ConnId;
  decoder : option ConnId;
  requestID : Z;
  pending : gmap Z ChanId;
  agentID : string;
  currentTask : string;
  phase : string;
  connected : bool;
  feedbackCh : chan FeedbackPayload;
}.

(** Everything a step can read or change. *)
Record World := mkWorld {
  hook : TempotownHook;
  chans : gmap ChanId (chan Response);  (* the response channels on the heap *)
  conns : list Conn;                    (* every connection dialled, by id *)
  dials : list string;                  (* every endpoint dialled *)
  now : Z;                              (* the clock, in nanoseconds *)
  ctx : option ctx_error;               (* ctx.Err(): [None] while not done *)
  logged : list LogEntry;               (* logger output, oldest first *)
}.

(** Field updates. *)
Definition set_conn (c : option ConnId) (h : TempotownHook) :=
  mkHook (cfg h) c (encoder h) (decoder h) (requestID h) (pending h) (agentID h)
         (currentTask h) (phase h) (connected h) (feedbackCh h).
Definition set_codec (e d : option ConnId) (h : TempotownHook) :=
  mkHook (cfg h) (conn h) e d (requestID h) (pending h) (agentID h)
         (currentTask h) (phase h) (connected h) (feedbackCh h).
Definition set_requestID (n : Z) (h : TempotownHook) :=
  mkHook (cfg h) (conn h) (encoder h) (decoder h) n (pending h) (agentID h)
         (currentTask h) (phase h) (connected h) (feedbackCh h).
Definition set_pending (p : gmap Z ChanId) (h : TempotownHook) :=
  mkHook (cfg h) (conn h) (encoder h) (decoder h) (requestID h) p (agentID h)
         (currentTask h) (phase h) (connected h) (feedbackCh h).
Definition set_agentID (a : string) (h : TempotownHook) :=
  mkHook (cfg h) (conn h) (encoder h) (decoder h) (requestID h) (pending h) a
         (currentTask h) (phase h) (connected h) (feedbackCh h).
Definition set_phase (p : string) (h : TempotownHook) :=
  mkHook (cfg h) (conn h) (encoder h) (decoder h) (requestID h) (pending h)
         (agentID h) (currentTask h) p (connected h) (feedbackCh h).
Definition set_connected (b : bool) (h : TempotownHook) :=
  mkHook (cfg h) (conn h) (encoder h) (decoder h) (requestID h) (pending h)
         (agentID h) (currentTask h) (phase h) b (feedbackCh h).
Definition set_feedbackCh (c : chan FeedbackPayload) (h : TempotownHook) :=
  mkHook (cfg h) (conn h) (encoder h) (decoder h) (requestID h) (pending h)
         (agentID h) (currentTask h) (phase h) (connected h) c.

Definition with_hook (f : TempotownHook -> TempotownHook) (w : World) :=
  mkWorld (f (hook w)) (chans w) (conns w) (dials w) (now w) (ctx w) (logged w).
Definition set_chans (cs : gmap ChanId (chan Response)) (w : World) :=
  mkWorld (hook w) cs (conns w) (dials w) (now w) (ctx w) (logged w).
Definition set_conns (cs : list Conn) (w : World) :=
  mkWorld (hook w) (chans w) cs (dials w) (now w) (ctx w) (logged w).
Definition set_dials (ds : list string) (w : World) :=
  mkWorld (hook w) (chans w) (conns w) ds (now w) (ctx w) (logged w).
Definition set_now (t : Z) (w : World) :=
  mkWorld (hook w) (chans w) (conns w) (dials w) t (ctx w) (logged w).
Definition set_ctx (c : option ctx_error) (w : World) :=
  mkWorld (hook w) (chans w) (conns w) (dials w) (now w) c (logged w).
Definition write_log (l : Level) (m : string) (attrs : list (string * string))
    (w : World) :=
  mkWorld (hook w) (chans w) (conns w) (dials w) (now w) (ctx w)
          (logged w ++ [mkLog l m attrs]).

(** [conn.Close()] on connection [c]. *)
Definition close_conn (c : ConnId) (w : World) : World :=
  set_conns (alter (fun k => mkConn (conn_endpoint k) true (conn_sent k)) c (conns w)) w.

(** ** Construction *)

(** [NewTempotownHook]: no hook for an empty endpoint, otherwise the
    defaults are filled in and the struct is built.  ([app] only supplies
    the logger.) *)
Definition NewTempotownHook (c : Config) : option TempotownHook :=
  if decide (Endpoint c = "") then None
  else
    let c1 := if decide (Role c = "") then
                mkConfig (Endpoint c) DefaultRole (Capabilities c)
                         (PollIntervalSeconds c)
              else c in
    let c2 := if decide (PollIntervalSeconds c1 = 0) then
                mkConfig (Endpoint c1) (Role c1) (Capabilities c1)
                         (DefaultPollInterval / Second)
              else c1 in
    Some (mkHook c2 None None None 0 ∅ "" "" "init" false (make_chan 10)).

(** The factory registered in [init]: [loaded] is what [app.LoadConfig]
    returned, an error or the configuration read.  The result is the hook
    handed to the host, if any. *)
Definition factory (loaded : option Config) : option TempotownHook :=
  match loaded with
  | None => None
  | Some c => NewTempotownHook c
  end.

(** The world a new hook starts in: nothing dialled, no channel allocated. *)
Definition init_world (h : TempotownHook) (t : Z) : World :=
  mkWorld h ∅ [] [] t None [].

(** ** Shutdown *)

(** [Stop]: under the mutex, close and forget the connection if there is
    one, clear the connected flag, log.  It returns [nil]. *)
Definition Stop (w : World) : World :=
  let w1 := match conn (hook w) with
            | Some c => with_hook (set_conn None) (close_conn c w)
            | None => w
            end in
  write_log LevelInfo "Tempotown hook stopped" []
            (with_hook (set_connected false) w1).

(** ** The RPC multiplexer: submit path *)

(** The first two lines of [call]: take the next request id from the atomic
    counter and make the one-slot response channel. *)
Definition call_alloc (w : World) : Z * ChanId * World :=
  let id := wrap_int64 (requestID (hook w) + 1) in
  let ch := fresh (dom (chans w)) in
  (id, ch, set_chans (<[ch := make_chan 1]> (chans w))
                     (with_hook (set_requestID id) w)).

(** [encoder.Encode(v)] on connection [c]: the frame is written unless the
    connection was closed on this side or the write fails ([io_ok] is the
    network's answer). *)
Definition encode (c : ConnId) (f : Frame) (io_ok : bool) (w : World)
    : World * bool :=
  match conns w !! c with
  | Some k =>
      if io_ok && negb (conn_closed k) then
        (set_conns (<[c := mkConn (conn_endpoint k) false (conn_sent k ++ [f])]> (conns w)) w,
         true)
      else (w, false)
  | None => (w, false)
  end.

(** The first locked section of [call]: install the slot, build the request
    and write it.  The result is whether [Encode] succeeded; a nil encoder
    is a nil dereference and gives no result at all. *)
Definition call_send (id : Z) (ch : ChanId) (method : string) (params : Params)
    (io_ok : bool) (w : World) : option (World * bool) :=
  let w1 := with_hook (set_pending (<[id := ch]> (pending (hook w)))) w in
  match encoder (hook w) with
  | Some c => Some (encode c (FrameRequest "2.0" id method params) io_ok w1)
  | None => None
  end.

(** [delete(h.pending, id)] under the mutex: [call] runs it after a failed
    write, on cancellation and on timeout, the reader after a delivery. *)
Definition delete_pending (id : Z) (w : World) : World :=
  with_hook (set_pending (delete id (pending (hook w)))) w.

(** The three cases of the [select] in [call]. *)
Inductive select_case := CaseCtxDone | CaseResponse | CaseTimer.

(** One way the [select] entered at time [t0] can fire in world [w]: the
    case must be ready, and then its branch runs.  [None] when the case is
    not ready. *)
Definition call_select (k : select_case) (id : Z) (ch : ChanId) (t0 : Z)
    (w : World) : option (World * (Response + error)) :=
  match k with
  | CaseCtxDone =>
      match ctx w with
      | Some e => Some (delete_pending id w, inr (ErrContext e))
      | None => None
      end
  | CaseResponse =>
      match chans w !! ch with
      | Some c =>
          match try_recv c with
          | Some (resp, c') =>
              let w' := set_chans (<[ch := c']> (chans w)) w in
              match resp_Error resp with
              | Some e => Some (w', inr (ErrRPC (err_Code e) (err_Message e)))
              | None => Some (w', inl resp)
              end
          | None => None
          end
      | None => None
      end
  | CaseTimer =>
      if t0 + CallTimeout <=? now w
      then Some (delete_pending id w, inr ErrRequestTimeout)
      else None
  end.

(** [sendNotification]: nothing without an encoder; otherwise the frame is
    written and the write's result dropped. *)
Definition sendNotification (method : string) (params : Params) (io_ok : bool)
    (w : World) : World :=
  match encoder (hook w) with
  | None => w
  | Some c => fst (encode c (FrameNotification "2.0" method params) io_ok w)
  end.

(** ** The RPC multiplexer: reader task *)

Inductive loop_status :=
| Continue      (* the loop goes round again *)
| Exit          (* [readLoop] returned *)
| Blocked.      (* parked for ever on a channel send, mutex held *)

(** One turn of the loop in [readLoop].  [d] is what [decoder.Decode]
    gives when it is called this turn. *)
Definition readLoop_iter (d : decode_error + Response) (w : World)
    : World * loop_status :=
  match ctx w with
  | Some _ => (w, Exit)
  | None =>
      match d with
      | inl ErrEOF | inl ErrClosed => (w, Exit)
      | inl _ => (write_log LevelError "read error" [] w, Exit)
      | inr resp =>
          match resp_ID resp with
          | AnyNil => (w, Continue)
          | v =>
              match assert_float64 v with
              | Some f =>
                  let id := int64_of_float64 f in
                  match pending (hook w) !! id with
                  | Some ch =>
                      match chans w !! ch with
                      | Some c =>
                          if chan_full c then (w, Blocked)
                          else
                            (delete_pending id
                               (set_chans
                                  (<[ch := mkChan (chan_buf c ++ [resp]) (chan_cap c)
                                                  (chan_closed c)]> (chans w)) w),
                             Continue)
                      | None => (w, Blocked)
                      end
                  | None => (w, Continue)
                  end
              | None => (w, Continue)
              end
          end
      end
  end.

(** [readLoop] over the frames the decoder yields, until it returns. *)
Fixpoint readLoop (ds : list (decode_error + Response)) (w : World)
    : World * loop_status :=
  match ds with
  | [] => (w, Continue)
  | d :: rest =>
      match readLoop_iter d w with
      | (w', Continue) => readLoop rest w'
      | r => r
      end
  end.

(** ** The MCP session *)

Section Session.
Context `{EncodingJSON}.

(** What [callTool] does with the outcome of its [call]. *)
Definition callTool_finish (r : Response + error) : string + error :=
  match r with
  | inr e => inr e
  | inl resp =>
      match unmarshal_ToolCallResult (resp_Result resp) with
      | None => inr ErrUnmarshalResult
      | Some result =>
          if result_IsError result then
            match result_Content result with
            | c :: _ => inr (ErrToolText (content_Text c))
            | [] => inr ErrTool
            end
          else
            match result_Content result with
            | c :: _ => inl (content_Text c)
            | [] => inl ""
            end
      end
  end.

(** The parameters [callTool] passes to [call "tools/call"]. *)
Definition callTool_params (name : string) (args : gmap string any) : Params :=
  ParamsToolCall (mkToolCallParams name args).

(** The parameters of the handshake request. *)
Definition initialize_params : Params :=
  ParamsInitialize (mkInitializeParams "2024-11-05" (mkImplementation "crush" "1.0.0")
                                       (mkClientCapability None None)).

(** What [initialize] does with the outcome of its [call]: on success the
    [initialized] notification goes out. *)
Definition initialize_finish (r : Response + error) (io_ok : bool) (w : World)
    : World * option error :=
  match r with
  | inr e => (w, Some e)
  | inl _ => (sendNotification "initialized" ParamsNil io_ok w, None)
  end.

(** ** The agent controller *)

(** The arguments of [register_agent]. *)
Definition registerAgent_args (h : TempotownHook) : gmap string any :=
  {[ "role" := AnyString (Role (cfg h));
     "capabilities" := AnyStrings (Capabilities (cfg h)) ]}.

(** What [registerAgent] does with the outcome of its [callTool]. *)
Definition registerAgent_finish (r : string + error) (w : World)
    : World * option error :=
  match r with
  | inr e => (w, Some e)
  | inl resp =>
      let w1 := match unmarshal_AgentID resp with
                | Some a => if decide (a = "") then w
                            else with_hook (set_agentID a) w
                | None => w
                end in
      (with_hook (set_phase "idle") w1, None)
  end.

(** [connect], first part: dial, and on success install the connection with
    its encoder and decoder (after which the reader task is started).
    [dial_ok] is the network's answer. *)
Definition connect_dial (dial_ok : bool) (w : World) : World * option error :=
  let w1 := set_dials (dials w ++ [Endpoint (cfg (hook w))]) w in
  if dial_ok then
    let c := length (conns w1) in
    let w2 := set_conns (conns w1 ++ [mkConn (Endpoint (cfg (hook w))) false []]) w1 in
    (with_hook (set_codec (Some c) (Some c)) (with_hook (set_conn (Some c)) w2), None)
  else (w1, Some ErrDial).

(** [connect], after [initialize] returned on connection [c]. *)
Definition connect_initialized (c : ConnId) (e : option error) (w : World)
    : World * option error :=
  match e with
  | Some err => (close_conn c w, Some (ErrInitialize err))
  | None => (w, None)
  end.

(** [connect], last two lines: the flag is raised and the fact logged. *)
Definition connect_finish (w : World) : World :=
  write_log LevelInfo "connected to Tempotown" [("agent_id", agentID (hook w))]
            (with_hook (set_connected true) w).

(** [connect], after [registerAgent] returned on connection [c]. *)
Definition connect_registered (c : ConnId) (e : option error) (w : World)
    : World * option error :=
  match e with
  | Some err => (close_conn c w, Some (ErrRegister err))
  | None => (connect_finish w, None)
  end.

(** What [connectionLoop] does once the reader's [done] channel is closed. *)
Definition connection_lost (w : World) : World :=
  write_log LevelInfo "connection lost, reconnecting..." []
            (with_hook (set_connected false) w).

(** A goroutine started with [go]: the [callTool] it will run. *)
Record spawned := mkSpawned {
  go_name : string;
  go_args : gmap string any;
}.

(** [reportStatus]: nothing when disconnected; otherwise the arguments are
    built and the call is started in a goroutine of its own. *)
Definition reportStatus (status : string) (progress : Z)
    (details : option (gmap string any)) (h : TempotownHook) : option spawned :=
  if negb (connected h) then None
  else
    let args : gmap string any :=
      {[ "status" := AnyString status; "progress" := AnyInt progress ]} in
    let args := match details with
                | Some d => <["details" := AnyMap d]> args
                | None => args
                end in
    Some (mkSpawned "report_status" args).

(** The loop over [msg.ToolCalls] in [handleEvent]: the first call not
    finished, if any. *)
Fixpoint first_unfinished (tcs : list ToolCallInfo) : option ToolCallInfo :=
  match tcs with
  | [] => None
  | tc :: rest => if negb (tc_Finished tc) then Some tc else first_unfinished rest
  end.

(** [handleEvent]: the status report the event gives rise to, if any. *)
Definition handleEvent (event : MessageEvent) (h : TempotownHook) : option spawned :=
  if negb (connected h) then None
  else
    let msg := ev_Message event in
    match ev_Type event with
    | MessageCreated =>
        match msg_Role msg with
        | MessageRoleUser => reportStatus "processing user input" 0 None h
        | MessageRoleAssistant => reportStatus "generating response" 50 None h
        | _ => None
        end
    | MessageUpdated =>
        match msg_Role msg with
        | MessageRoleAssistant =>
            match first_unfinished (msg_ToolCalls msg) with
            | Some tc =>
                reportStatus ("running tool: " ++ tc_Name tc) 50
                  (Some {[ "tool" := AnyString (tc_Name tc);
                           "tool_id" := AnyString (tc_ID tc) ]}) h
            | None => reportStatus "response complete" 100 None h
            end
        | _ => None
        end
    | MessageDeleted => None
    end.

(** The warning [pollFeedback] logs for an item it drops. *)
Definition dropped_warning (item : FeedbackPayload) : LogEntry :=
  mkLog LevelWarn "feedback channel full, dropping" [("source", fb_Source item)].

(** One turn of the loop over [feedback.Items] in [pollFeedback]: a
    non-blocking send, and a warning naming the item's source when the
    channel is full. *)
Definition offer_item (item : FeedbackPayload) (w : World) : World :=
  match try_send (feedbackCh (hook w)) item with
  | Some c => with_hook (set_feedbackCh c) w
  | None =>
      mkWorld (hook w) (chans w) (conns w) (dials w) (now w) (ctx w)
              (logged w ++ [dropped_warning item])
  end.

(** The whole loop, item after item. *)
Fixpoint enqueue_items (items : list FeedbackPayload) (w : World) : World :=
  match items with
  | [] => w
  | item :: rest => enqueue_items rest (offer_item item w)
  end.

(** The arguments of [get_pending_feedback]. *)
Definition pollFeedback_args : gmap string any := {[ "limit" := AnyInt 10 ]}.

(** What [pollFeedback] does with the outcome of its [callTool]. *)
Definition pollFeedback_finish (r : string + error) (w : World) : World :=
  match r with
  | inr e => write_log LevelDebug "failed to poll feedback" [] w
  | inl result =>
      match unmarshal_Items result with
      | None => w
      | Some items => enqueue_items items w
      end
  end.

(** The host reading one payload from [FeedbackCh()]. *)
Definition feedback_recv (w : World) : option (FeedbackPayload * World) :=
  match try_recv (feedbackCh (hook w)) with
  | Some (x, c) => Some (x, with_hook (set_feedbackCh c) w)
  | None => None
  end.

End Session.

(** ** Executions *)

(** The atomic steps of the hook's goroutines and of its environment.  The
    values a goroutine keeps in local variables between two of its steps
    (its request id, its channel, the time it entered the [select]) are
    arguments of the later step. *)
Inductive Action :=
| ActDial (dial_ok : bool)                       (* connect: dial and install *)
| ActCloseConn (c : ConnId)                      (* connect: conn.Close() on failure *)
| ActConnected                                   (* connect: connected.Store(true) *)
| ActConnectionLost                              (* connectionLoop: after <-done *)
| ActAlloc                                       (* call: requestID.Add(1), make(chan) *)
| ActSend (id : Z) (ch : ChanId) (method : string) (params : Params) (io_ok : bool)
| ActAbort (id : Z)                              (* call: delete after a failed write *)
| ActSelect (k : select_case) (id : Z) (ch : ChanId) (t0 : Z)
| ActNotify (method : string) (params : Params) (io_ok : bool)
| ActRead (d : decode_error + Response)          (* readLoop: one turn *)
| ActRegistered (r : string + error)             (* registerAgent: after callTool *)
| ActPolled (r : string + error)                 (* pollFeedback: after callTool *)
| ActOffer (item : FeedbackPayload)              (* pollFeedback: one turn of its loop *)
| ActFeedbackRecv                                (* the host reads FeedbackCh() *)
| ActStop
| ActTick (dt : Z)                               (* time passes *)
| ActCancel (e : ctx_error).                     (* the lifetime context ends *)

Section Executions.
Context `{EncodingJSON}.

(** One step; [None] when the step cannot be taken in [w]. *)
Definition step (a : Action) (w : World) : option World :=
  match a with
  | ActDial ok => Some (fst (connect_dial ok w))
  | ActCloseConn c => Some (close_conn c w)
  | ActConnected => Some (connect_finish w)
  | ActConnectionLost => Some (connection_lost w)
  | ActAlloc => Some (snd (call_alloc w))
  | ActSend id ch method params io_ok =>
      fst <$> call_send id ch method params io_ok w
  | ActAbort id => Some (delete_pending id w)
  | ActSelect k id ch t0 => fst <$> call_select k id ch t0 w
  | ActNotify method params io_ok => Some (sendNotification method params io_ok w)
  | ActRead d =>
      match readLoop_iter d w with
      | (_, Blocked) => None
      | (w', _) => Some w'
      end
  | ActRegistered r => Some (fst (registerAgent_finish r w))
  | ActPolled r => Some (pollFeedback_finish r w)
  | ActOffer item => Some (offer_item item w)
  | ActFeedbackRecv => snd <$> feedback_recv w
  | ActStop => Some (Stop w)
  | ActTick dt => if 0 <=? dt then Some (set_now (now w + dt) w) else None
  | ActCancel e =>
      match ctx w with
      | None => Some (set_ctx (Some e) w)
      | Some _ => None
      end
  end.

(** A run: the steps in order, as long as each can be taken. *)
Fixpoint run (acts : list Action) (w : World) : option World :=
  match acts with
  | [] => Some w
  | a :: rest =>
      match step a w with
      | Some w' => run rest w'
      | None => None
      end
  end.

(** What a run shows about request ids: each successful dial, which opens a
    transport lifetime, and each id handed out by [call]. *)
Inductive id_event := EvDialed | EvId (id : Z).

Fixpoint id_events (acts : list Action) (w : World) : list id_event :=
  match acts with
  | [] => []
  | a :: rest =>
      let here := match a with
                  | ActDial true => [EvDialed]
                  | ActAlloc => [EvId (fst (fst (call_alloc w)))]
                  | _ => []
                  end in
      match step a w with
      | Some w' => here ++ id_events rest w'
      | None => []
      end
  end.

(** The ids of a run, in the order [call] handed them out. *)
Fixpoint ids_of (evs : list id_event) : list Z :=
  match evs with
  | [] => []
  | EvDialed :: rest => ids_of rest
  | EvId id :: rest => id :: ids_of rest
  end.

(** The ids grouped by transport lifetime: the group under construction is
    [cur]; a dial closes it and opens the next. *)
Fixpoint lifetimes (evs : list id_event) (cur : list Z) : list (list Z) :=
  match evs with
  | [] => [cur]
  | EvDialed :: rest => cur :: lifetimes rest []
  | EvId id :: rest => lifetimes rest (cur ++ [id])
  end.

(** What the host reads from the feedback channel in one step. *)
Definition items_read (a : Action) (w : World) : list FeedbackPayload :=
  match a with
  | ActFeedbackRecv =>
      match feedback_recv w with
      | Some (x, _) => [x]
      | None => []
      end
  | _ => []
  end.

(** The items of the orchestrator's answer that the poller comes to in one
    step. *)
Definition items_polled (a : Action) : list FeedbackPayload :=
  match a with
  | ActPolled (inl text) =>
      match unmarshal_Items text with
      | Some items => items
      | None => []
      end
  | ActOffer item => [item]
  | _ => []
  end.

(** The payloads the host has read from the feedback channel during a run,
    in the order read. *)
Fixpoint feedback_read (acts : list Action) (w : World) : list FeedbackPayload :=
  match acts with
  | [] => []
  | a :: rest =>
      match step a w with
      | Some w' => items_read a w ++ feedback_read rest w'
      | None => []
      end
  end.

(** The items the orchestrator returned over a run, poll after poll, in the
    order returned. *)
Fixpoint feedback_polled (acts : list Action) : list FeedbackPayload :=
  match acts with
  | [] => []
  | a :: rest => items_polled a ++ feedback_polled rest
  end.

End Executions.

(** ** Whole calls *)

(** What happens around one caller while it is parked in the [select]:
    the frames the reader task decodes meanwhile, the time that passes, and
    whether the lifetime context ends. *)
Record waiting := mkWaiting {
  arrivals : list (decode_error + Response);
  elapsed : Z;
  cancelled : option ctx_error;
}.

Definition while_waiting (e : waiting) (w : World) : World :=
  let w1 := fst (readLoop (arrivals e) w) in
  let w2 := set_now (now w1 + elapsed e) w1 in
  match ctx w2, cancelled e with
  | None, Some c => set_ctx (Some c) w2
  | _, _ => w2
  end.

(** How one [call] is scheduled: whether its write succeeds, what happens
    while it waits, and which ready case of the [select] is taken. *)
Record schedule := mkSchedule {
  io_ok : bool;
  env : waiting;
  fires : select_case;
}.

Section Calls.
Context `{EncodingJSON}.

(** [call], run from its first line to its return under schedule [s].
    [None] when the run is impossible: nil encoder, or the chosen case is
    not ready. *)
Definition call (method : string) (params : Params) (s : schedule) (w : World)
    : option (World * (Response + error)) :=
  let '(id, ch, w1) := call_alloc w in
  match call_send id ch method params (io_ok s) w1 with
  | None => None
  | Some (w2, false) => Some (delete_pending id w2, inr ErrEncode)
  | Some (w2, true) => call_select (fires s) id ch (now w2) (while_waiting (env s) w2)
  end.

Definition callTool (name : string) (args : gmap string any) (s : schedule)
    (w : World) : option (World * (string + error)) :=
  match call "tools/call" (callTool_params name args) s w with
  | None => None
  | Some (w', r) => Some (w', callTool_finish r)
  end.

Definition initialize (s : schedule) (notify_ok : bool) (w : World)
    : option (World * option error) :=
  match call "initialize" initialize_params s w with
  | None => None
  | Some (w', r) => Some (initialize_finish r notify_ok w')
  end.

Definition registerAgent (s : schedule) (w : World) : option (World * option error) :=
  match callTool "register_agent" (registerAgent_args (hook w)) s w with
  | None => None
  | Some (w', r) => Some (registerAgent_finish r w')
  end.

Definition pollFeedback (s : schedule) (w : World) : option World :=
  match callTool "get_pending_feedback" pollFeedback_args s w with
  | None => None
  | Some (w', r) => Some (pollFeedback_finish r w')
  end.

(** One tick of [pollFeedbackLoop]: a poll when connected, nothing
    otherwise. *)
Definition pollFeedbackLoop_tick (s : schedule) (w : World) : option World :=
  if connected (hook w) then pollFeedback s w else Some w.

(** [connect], from the dial to its return. *)
Definition connect (dial_ok : bool) (s_init : schedule) (notify_ok : bool)
    (s_reg : schedule) (w : World) : option (World * option error) :=
  match connect_dial dial_ok w with
  | (w1, Some e) => Some (w1, Some e)
  | (w1, None) =>
      match conn (hook w1) with
      | None => None
      | Some c =>
          match initialize s_init notify_ok w1 with
          | None => None
          | Some (w2, e2) =>
              match connect_initialized c e2 w2 with
              | (w3, Some e) => Some (w3, Some e)
              | (w3, None) =>
                  match registerAgent s_reg w3 with
                  | None => None
                  | Some (w4, e4) => Some (connect_registered c e4 w4)
                  end
              end
          end
      end
  end.

End Calls.

(** ** The process around the hook *)

(** The host keeps the hook its factory returned and runs it; a factory
    that returned no hook leaves nothing to start, which is how the source
    disables the plugin ("No endpoint configured - hook is disabled"). *)
Inductive Process :=
| Dormant
| Running (w : World).

Definition boot (loaded : option Config) (t : Z) : Process :=
  match factory loaded with
  | None => Dormant
  | Some h => Running (init_world h t)
  end.

(** The endpoints a process has dialled. *)
Definition process_dials (p : Process) : list string :=
  match p with
  | Dormant => []
  | Running w => dials w
  end.

Definition process_conns (p : Process) : list Conn :=
  match p with
  | Dormant => []
  | Running w => conns w
  end.

Definition process_run `{EncodingJSON} (acts : list Action) (p : Process)
    : option Process :=
  match p with
  | Dormant => Some Dormant
  | Running w => Running <$> run acts w
  end.

(** ** Sample data *)

(** A decoder that knows a handful of documents, written here without their
    quotation marks; every other text is a syntax error. *)
Definition lookup_doc {A} (table : list (string * A)) (text : string) : option A :=
  snd <$> List.find (fun entry => bool_decide (fst entry = text)) table.

Definition sample_results : list (RawMessage * ToolCallResult) :=
  [ ("{protocolVersion:2024-11-05}", mkToolCallResult [] false);
    ("{content:[{type:text,text:{agent_id:A-1}}]}",
      mkToolCallResult [mkContent "text" "{agent_id:A-1}"] false);
    ("{content:[{type:text,text:registered}]}",
      mkToolCallResult [mkContent "text" "registered"] false);
    ("{content:[{type:text,text:nope}],isError:true}",
      mkToolCallResult [mkContent "text" "nope"] true);
    ("{content:[],isError:true}", mkToolCallResult [] true) ].

Definition sample_agents : list (string * string) :=
  [ ("{agent_id:A-1}", "A-1"); ("{}", EmptyString) ].

Definition item_m1 : FeedbackPayload := mkFeedback "m1" "t" EmptyString ∅.
Definition item_m2 : FeedbackPayload := mkFeedback "m2" "t" EmptyString ∅.

Definition sample_items : list (string * list FeedbackPayload) :=
  [ ("{items:[{message:m1,source:t},{message:m2,source:t}]}", [item_m1; item_m2]);
    ("{items:[]}", []) ].

#[local] Instance sample_json : EncodingJSON := {|
  unmarshal_ToolCallResult := lookup_doc sample_results;
  unmarshal_AgentID := lookup_doc sample_agents;
  unmarshal_Items := lookup_doc sample_items;
|}.

Definition sample_config : Config :=
  mkConfig "127.0.0.1:9090" "coder" ["code"; "test"] 1.

Definition sample_hook : TempotownHook :=
  mkHook sample_config None None None 0 ∅ EmptyString EmptyString "init" false
         (make_chan 10).

(** A response frame answering request [id] with [result]. *)
Definition response_for (id : Z) (result : RawMessage) : Response :=
  mkResponse "2.0" (AnyFloat64 (float64_of_Z id)) result None.

Definition reply (id : Z) (result : RawMessage) : decode_error + Response :=
  inr (response_for id result).

(** A response frame whose [id] is the JSON string spelling [1]. *)
Definition string_id_response : Response :=
  mkResponse "2.0" (AnyString "1") "{protocolVersion:2024-11-05}" None.

(** A schedule in which the peer answers request [id] with [result] and the
    caller takes the answer. *)
Definition answered (id : Z) (result : RawMessage) : schedule :=
  mkSchedule true (mkWaiting [reply id result] 0 None) CaseResponse.

(** The hook dialled and sent its first request, [initialize], which is
    still waiting for its answer. *)
Definition world_one_pending : World :=
  let w0 := fst (connect_dial true (init_world sample_hook 0)) in
  let '(id, ch, w1) := call_alloc w0 in
  match call_send id ch "initialize" initialize_params true w1 with
  | Some (w2, _) => w2
  | None => w1
  end.

(** The hook after a first complete [connect] in which the orchestrator
    assigned the agent id [A-1]. *)
Definition world_connected : World :=
  match connect true (answered 1 "{protocolVersion:2024-11-05}") true
                (answered 2 "{content:[{type:text,text:{agent_id:A-1}}]}")
                (init_world sample_hook 0) with
  | Some (w, _) => w
  | None => init_world sample_hook 0
  end.

(** A run with two transport lifetimes: connect (two requests), the peer
    closes, the supervisor notices and dials again, and the second
    connection's handshake and registration go out. *)
Definition two_lifetimes : list Action :=
  [ ActDial true;
    ActAlloc; ActSend 1 0%nat "initialize" initialize_params true;
    ActRead (reply 1 "{protocolVersion:2024-11-05}");
    ActSelect CaseResponse 1 0%nat 0;
    ActNotify "initialized" ParamsNil true;
    ActAlloc;
    ActSend 2 1%nat "tools/call"
            (callTool_params "register_agent" (registerAgent_args sample_hook)) true;
    ActRead (reply 2 "{content:[{type:text,text:{agent_id:A-1}}]}");
    ActSelect CaseResponse 2 1%nat 0;
    ActRegistered (inl "{agent_id:A-1}");
    ActConnected;
    ActRead (inl ErrEOF);
    ActConnectionLost;
    ActTick ReconnectDelay;
    ActDial true;
    ActAlloc; ActSend 3 2%nat "initialize" initialize_params true;
    ActRead (reply 3 "{protocolVersion:2024-11-05}");
    ActSelect CaseResponse 3 2%nat ReconnectDelay;
    ActNotify "initialized" ParamsNil true;
    ActAlloc;
    ActSend 4 3%nat "tools/call"
            (callTool_params "register_agent" (registerAgent_args sample_hook)) true ].

(** A goroutine running [callTool "report_status"] with exactly the
    arguments [status], [progress] and, when given, [details]. *)
Definition reports (o : option spawned) (status : string) (progress : Z)
    (details : option (gmap string any)) : Prop :=
  exists g, o = Some g
    /\ go_name g = "report_status"
    /\ go_args g !! "status" = Some (AnyString status)
    /\ go_args g !! "progress" = Some (AnyInt progress)
    /\ go_args g !! "details" = (AnyMap <$> details)
    /\ forall k, is_Some (go_args g !! k) ->
         k = "status" \/ k = "progress" \/ k = "details".

Definition grep_call (finished : bool) : ToolCallInfo :=
  mkToolCall "t1" "grep" EmptyString finished.

Definition assistant_update (tcs : list ToolCallInfo) : MessageEvent :=
  mkEvent MessageUpdated
          (mkMessage "m-2" "s-1" MessageRoleAssistant EmptyString tcs []).

(** The transport is as it was: same connected flag, same connection,
    encoder and decoder in the hook, and no connection closed or reopened. *)
Definition same_transport (w w' : World) : Prop :=
  connected (hook w') = connected (hook w)
  /\ conn (hook w') = conn (hook w)
  /\ encoder (hook w') = encoder (hook w)
  /\ decoder (hook w') = decoder (hook w)
  /\ forall c, conn_closed <$> conns w' !! c = conn_closed <$> conns w !! c.

(** The failure [callTool] returns for a result flagged [isError]. *)
Definition tool_error (result : ToolCallResult) : error :=
  match result_Content result with
  | c :: _ => ErrToolText (content_Text c)
  | [] => ErrTool
  end.

(** The connected hook after a [report_status] call that the orchestrator
    answered with an error result. *)
Definition tool_error_schedule : schedule :=
  answered 3 "{content:[{type:text,text:nope}],isError:true}".

Definition status_args : gmap string any :=
  {[ "status" := AnyString "testing"; "progress" := AnyInt 50 ]}.

Definition world_after_tool_error : World :=
  match callTool "report_status" status_args tool_error_schedule world_connected with
  | Some (w, _) => w
  | None => world_connected
  end.

(** The connected hook after the peer closed, the supervisor noticed, and a
    second [connect] whose [register_agent] answer is not JSON. *)
Definition world_reconnected : World :=
  let w1 := connection_lost (fst (readLoop_iter (inl ErrEOF) world_connected)) in
  match connect true (answered 3 "{protocolVersion:2024-11-05}") true
                (answered 4 "{content:[{type:text,text:registered}]}") w1 with
  | Some (w, _) => w
  | None => w1
  end.

(** Twenty items from one source, and a run in which two polls deliver
    [m1], [m2] and then the twenty while the host reads twice in between. *)
Definition numbered_item (n : nat) : FeedbackPayload :=
  mkFeedback (String (Ascii.ascii_of_nat (65 + n)) EmptyString) "t" EmptyString ∅.

Definition twenty_items : list FeedbackPayload := numbered_item <$> seq 0 20.

Definition polling_run : list Action :=
  [ ActPolled (inl "{items:[{message:m1,source:t},{message:m2,source:t}]}");
    ActFeedbackRecv ]
  ++ (ActOffer <$> twenty_items) ++ [ ActFeedbackRecv ].

(** The ids of the requests among some frames, in the order written. *)
Definition request_ids (fs : list Frame) : list Z :=
  omap (fun f => match f with
                 | FrameRequest _ id _ _ => Some id
                 | FrameNotification _ _ _ => None
                 end) fs.

(** Two [report_status] goroutines on the connected hook: each takes its
    id, then the second is first to get the mutex and write. *)
Definition racing_reports : list Action :=
  [ ActAlloc; ActAlloc;
    ActSend 4 3%nat "tools/call" (callTool_params "report_status" status_args) true;
    ActSend 3 2%nat "tools/call" (callTool_params "report_status" status_args) true ].

(** ** More of the package *)

(** The request [call] writes for id [id]. *)
Definition request_frame (id : Z) (method : string) (params : Params) : Frame :=
  FrameRequest "2.0" id method params.

(** Whether a write on the hook's encoder goes through in [w]: there is an
    encoder, its connection was not closed on this side, and the network
    accepts the write. *)
Definition write_succeeds (ok : bool) (w : World) : bool :=
  match encoder (hook w) with
  | Some c =>
      match conns w !! c with
      | Some k => ok && negb (conn_closed k)
      | None => false
      end
  | None => false
  end.

(** The connections after frame [f] was written on the hook's encoder. *)
Definition conns_after_write (f : Frame) (w : World) : list Conn :=
  match encoder (hook w) with
  | Some c => alter (fun k => mkConn (conn_endpoint k) false (conn_sent k ++ [f])) c (conns w)
  | None => conns w
  end.

(** The parts of the world no step of an RPC touches: everything in the
    hook but the request counter and the pending map, and the dial record. *)
Definition untouched_by_rpc (w w' : World) : Prop :=
  cfg (hook w') = cfg (hook w)
  /\ conn (hook w') = conn (hook w)
  /\ encoder (hook w') = encoder (hook w)
  /\ decoder (hook w') = decoder (hook w)
  /\ agentID (hook w') = agentID (hook w)
  /\ currentTask (hook w') = currentTask (hook w)
  /\ phase (hook w') = phase (hook w)
  /\ connected (hook w') = connected (hook w)
  /\ feedbackCh (hook w') = feedbackCh (hook w)
  /\ dials w' = dials w.

(** Every slot of the pending map is ready for its one delivery: its
    channel is on the heap, empty, with room, and no other id shares it. *)
Definition slots_ok (p : gmap Z nat) (cs : gmap nat (chan Response)) : Prop :=
  forall id ch, p !! id = Some ch ->
    (exists c, cs !! ch = Some c /\ chan_buf c = [] /\ (0 < chan_cap c)%nat)
    /\ forall id', p !! id' = Some ch -> id' = id.

Definition slots_ready (w : World) : Prop :=
  slots_ok (pending (hook w)) (chans w).

(** A schedule in which the write goes through, the reader decodes exactly
    the frame [resp] while the caller waits, and the caller takes what is on
    its channel. *)
Definition answered_with (resp : Response) : schedule :=
  mkSchedule true (mkWaiting [inr resp] 0 None) CaseResponse.



(** The cases of the [select] in [Start]'s loop: the context is done, an
    event arrives, or the event channel was closed. *)
Inductive start_select :=
| StartCtxDone
| StartEvent (event : MessageEvent)
| StartClosed.

(** One turn of the loop in [Start], with the goroutine the event handler
    starts, if any.  [None] when the case is not ready. *)
Definition Start_iter (k : start_select) (w : World)
    : option (World * option spawned * loop_status) :=
  match k with
  | StartCtxDone =>
      match ctx w with
      | Some _ => Some (Stop w, None, Exit)
      | None => None
      end
  | StartEvent event => Some (w, handleEvent event (hook w), Continue)
  | StartClosed => Some (Stop w, None, Exit)
  end.

(** [Start] without a message subscriber: the warning, then [Stop] once the
    context is done. *)
Definition Start_unsubscribed (w : World) : option World :=
  let w1 := write_log LevelWarn
              "no message subscriber available, status reporting disabled" [] w in
  match ctx w1 with
  | Some _ => Some (Stop w1)
  | None => None
  end.

(** Between [w] and [w'] the frames [fs] were written on connection [c] and
    nothing else happened to any connection. *)
Definition appended (c : nat) (fs : list Frame) (w w' : World) : Prop :=
  length (conns w') = length (conns w)
  /\ (forall c', c' <> c -> conns w' !! c' = conns w !! c')
  /\ forall k, conns w !! c = Some k ->
       conns w' !! c
       = Some (mkConn (conn_endpoint k) (conn_closed k) (conn_sent k ++ fs)).

(** The [initialized] notification. *)
Definition initialized_frame : Frame :=
  FrameNotification "2.0" "initialized" ParamsNil.

(** The frames of a handshake: the [initialize] request with id [id1], the
    notification when its write went through, and the [register_agent] call
    with id [id2]. *)
Definition handshake_frames (id1 id2 : Z) (notified : bool) (h : TempotownHook)
    : list Frame :=
  [request_frame id1 "initialize" initialize_params]
  ++ (if notified then [initialized_frame] else [])
  ++ [request_frame id2 "tools/call"
        (callTool_params "register_agent" (registerAgent_args h))].

(** A schedule in which the write fails. *)
Definition write_fails : schedule :=
  mkSchedule false (mkWaiting [] 0 None) CaseTimer.



(** The new hook after a [connect] whose first write failed. *)
Definition world_connect_failed : World :=
  match connect true write_fails true write_fails (init_world sample_hook 0) with
  | Some (w, _) => w
  | None => init_world sample_hook 0
  end.

(** Steps of the other goroutines between two turns of [Start]'s loop, and
    the case its [select] then takes. *)
Definition start_turn : Type := list Action * start_select.

Section StartLoop.
Context `{EncodingJSON}.

(** The loop of [Start]: turn after turn until one of them returns, with
    the report goroutines started on the way. *)
Fixpoint Start_loop (turns : list start_turn) (w : World)
    : option (World * list spawned * loop_status) :=
  match turns with
  | [] => Some (w, [], Continue)
  | (acts, k) :: rest =>
      match run acts w with
      | None => None
      | Some w1 =>
          match Start_iter k w1 with
          | None => None
          | Some (w2, o, Continue) =>
              match Start_loop rest w2 with
              | None => None
              | Some (w3, os, st) => Some (w3, (option_list o ++ os)%list, st)
              end
          | Some (w2, o, st) => Some (w2, option_list o, st)
          end
      end
  end.

End StartLoop.

(** The events a run of [Start]'s loop was offered. *)
Definition events_of (turns : list start_turn) : list MessageEvent :=
  omap (fun t => match snd t with
                 | StartEvent event => Some event
                 | _ => None
                 end) turns.

(** A user message, then shutdown, on the connected hook. *)
Definition user_created : MessageEvent :=
  mkEvent MessageCreated
          (mkMessage "m-1" "s-1" MessageRoleUser "hello" [] []).

Definition start_turns : list start_turn :=
  [ ([], StartEvent user_created);
    ([ActCancel Canceled], StartCtxDone) ].

(** ** Facts used throughout *)

Lemma wrap_int64_small z : min_int64 <= z <= max_int64 -> wrap_int64 z = z.
Proof.
  unfold wrap_int64, min_int64, max_int64. intros Hz.
  rewrite Z.mod_small; lia.
Qed.

Lemma try_send_buf {A} (c c' : chan A) x :
  try_send c x = Some c' ->
  chan_buf c' = (chan_buf c ++ [x])%list /\ chan_cap c' = chan_cap c
  /\ chan_closed c' = chan_closed c /\ (length (chan_buf c) < chan_cap c)%nat.
Proof.
  unfold try_send, chan_full. destruct (Nat.leb_spec (chan_cap c) (length (chan_buf c)));
    intros Hs; inversion Hs; subst; simpl; repeat split; lia.
Qed.

Lemma try_send_full {A} (c : chan A) x :
  try_send c x = None <-> (chan_cap c <= length (chan_buf c))%nat.
Proof.
  unfold try_send, chan_full. destruct (Nat.leb_spec (chan_cap c) (length (chan_buf c)));
    split; intros; try discriminate; try lia; reflexivity.
Qed.

Example sample_world_one_pending :
  pending (hook world_one_pending) = {[ 1 := 0%nat ]}
  /\ conn_sent <$> conns world_one_pending !! 0%nat
     = Some [FrameRequest "2.0" 1 "initialize" initialize_params].
Proof. vm_compute. split; reflexivity. Qed.

Example sample_world_connected :
  connected (hook world_connected) = true
  /\ agentID (hook world_connected) = "A-1"
  /\ phase (hook world_connected) = "idle"
  /\ pending (hook world_connected) = ∅.
Proof. vm_compute. repeat split; reflexivity. Qed.

Example sample_two_lifetimes :
  lifetimes (id_events two_lifetimes (init_world sample_hook 0)) []
  = [[]; [1; 2]; [3; 4]]
  /\ is_Some (run two_lifetimes (init_world sample_hook 0)).
Proof. vm_compute. split; [reflexivity | eexists; reflexivity]. Qed.

(** The happy path: the peer receives [initialize], [initialized] and the
    [register_agent] call, in this order. *)
Example sample_handshake_frames :
  conn_sent <$> conns world_connected !! 0%nat
  = Some [ FrameRequest "2.0" 1 "initialize" initialize_params;
           FrameNotification "2.0" "initialized" ParamsNil;
           FrameRequest "2.0" 2 "tools/call"
             (callTool_params "register_agent"
                {[ "role" := AnyString "coder";
                   "capabilities" := AnyStrings ["code"; "test"] ]}) ].
Proof. vm_compute. reflexivity. Qed.

(** ** Construction gating *)

(** C7: for any configuration whose endpoint is the empty string, the
    constructor and the factory return no hook, the process stays dormant,
    and whatever is scheduled afterwards no endpoint is ever dialled and no
    connection exists. *)
Theorem empty_endpoint_constructs_nothing `{EncodingJSON}
    (c : Config) (t : Z) (acts : list Action) :
  Endpoint c = EmptyString ->
  NewTempotownHook c = None
  /\ factory (Some c) = None
  /\ boot (Some c) t = Dormant
  /\ exists p, process_run acts (boot (Some c) t) = Some p
       /\ process_dials p = [] /\ process_conns p = [].
Proof.
  intros Hempty.
  assert (Hnew : NewTempotownHook c = None).
  { unfold NewTempotownHook. rewrite Hempty. reflexivity. }
  assert (Hboot : boot (Some c) t = Dormant).
  { unfold boot, factory. rewrite Hnew. reflexivity. }
  repeat split; try assumption.
  exists Dormant. rewrite Hboot. repeat split.
Qed.

Lemma empty_endpoint_constructs_nothing_witness :
  NewTempotownHook (mkConfig EmptyString "coder" [] 0) = None
  /\ factory (Some (mkConfig EmptyString "coder" [] 0)) = None
  /\ boot (Some (mkConfig EmptyString "coder" [] 0)) 0 = Dormant
  /\ exists p, process_run [ActDial true; ActAlloc]
                 (boot (Some (mkConfig EmptyString "coder" [] 0)) 0) = Some p
       /\ process_dials p = [] /\ process_conns p = [].
Proof.
  apply (empty_endpoint_constructs_nothing
           (mkConfig EmptyString "coder" [] 0) 0 [ActDial true; ActAlloc]).
  reflexivity.
Defined.

(** A configured endpoint does give a hook, with the defaults filled in. *)
Lemma NewTempotownHook_configured (c : Config) :
  Endpoint c <> EmptyString ->
  exists h, NewTempotownHook c = Some h
    /\ Endpoint (cfg h) = Endpoint c
    /\ requestID h = 0 /\ pending h = ∅ /\ connected h = false
    /\ conn h = None /\ agentID h = EmptyString /\ phase h = "init"
    /\ feedbackCh h = make_chan 10.
Proof.
  intros Hne. unfold NewTempotownHook.
  destruct (decide (Endpoint c = EmptyString)) as [He | _]; [contradiction |].
  eexists. split; [reflexivity |].
  simpl. repeat split.
  destruct (decide (Role c = EmptyString)); simpl;
    match goal with |- context [decide ?P] => destruct (decide P) end; reflexivity.
Qed.

(** ** Status projection *)

Lemma first_unfinished_split (pre post : list ToolCallInfo) (tc : ToolCallInfo) :
  forallb tc_Finished pre = true -> tc_Finished tc = false ->
  first_unfinished (pre ++ tc :: post) = Some tc.
Proof.
  induction pre as [| p pre IH]; simpl; intros Hpre Htc.
  - rewrite Htc. reflexivity.
  - apply andb_prop in Hpre as [Hp Hpre]. rewrite Hp. simpl. auto.
Qed.

Lemma first_unfinished_none (tcs : list ToolCallInfo) :
  forallb tc_Finished tcs = true -> first_unfinished tcs = None.
Proof.
  induction tcs as [| p tcs IH]; simpl; intros Hall; [reflexivity |].
  apply andb_prop in Hall as [Hp Hall]. rewrite Hp. simpl. auto.
Qed.

Lemma reportStatus_reports (h : TempotownHook) status progress details :
  connected h = true ->
  reports (reportStatus status progress details h) status progress details.
Proof.
  intros Hc. unfold reportStatus. rewrite Hc. simpl.
  eexists. split; [reflexivity |]. simpl.
  destruct details as [d |]; simpl.
  - repeat split; try (by simplify_map_eq).
    intros k [v Hk].
    destruct (decide (k = "details")) as [-> | ?]; [tauto |].
    destruct (decide (k = "status")) as [-> | ?]; [tauto |].
    destruct (decide (k = "progress")) as [-> | ?]; [tauto |].
    by simplify_map_eq.
  - repeat split; try (by simplify_map_eq).
    intros k [v Hk].
    destruct (decide (k = "status")) as [-> | ?]; [tauto |].
    destruct (decide (k = "progress")) as [-> | ?]; [tauto |].
    by simplify_map_eq.
Qed.

(** C3: while the hook is connected, a message event gives exactly the
    mapped [report_status] call: user message created, "processing user
    input" at 0; assistant message created, "generating response" at 50;
    assistant message updated with an unfinished tool call, "running tool:
    <name>" at 50 with the tool's name and id of the first unfinished call as
    details; assistant message updated with every tool call finished (or
    none), "response complete" at 100; any other event, no call. *)
Theorem handleEvent_status_projection (h : TempotownHook) (ev : MessageEvent) :
  connected h = true ->
  let msg := ev_Message ev in
  let out := handleEvent ev h in
  match ev_Type ev, msg_Role msg with
  | MessageCreated, MessageRoleUser =>
      reports out "processing user input" 0 None
  | MessageCreated, MessageRoleAssistant =>
      reports out "generating response" 50 None
  | MessageUpdated, MessageRoleAssistant =>
      (forall pre tc post,
          msg_ToolCalls msg = (pre ++ tc :: post)%list ->
          forallb tc_Finished pre = true -> tc_Finished tc = false ->
          reports out ("running tool: " ++ tc_Name tc) 50
                  (Some {[ "tool" := AnyString (tc_Name tc);
                           "tool_id" := AnyString (tc_ID tc) ]}))
      /\ (forallb tc_Finished (msg_ToolCalls msg) = true ->
          reports out "response complete" 100 None)
  | _, _ => out = None
  end.
Proof.
  intros Hc msg out. subst out msg. unfold handleEvent. rewrite Hc. simpl.
  destruct (ev_Type ev), (msg_Role (ev_Message ev));
    try reflexivity; try (by apply reportStatus_reports).
  split.
  - intros pre tc post Hsplit Hpre Htc.
    rewrite Hsplit, (first_unfinished_split pre post tc Hpre Htc).
    by apply reportStatus_reports.
  - intros Hall. rewrite (first_unfinished_none _ Hall).
    by apply reportStatus_reports.
Qed.

Lemma handleEvent_status_projection_witness :
  reports (handleEvent (assistant_update [grep_call false]) (hook world_connected))
          "running tool: grep" 50
          (Some {[ "tool" := AnyString "grep"; "tool_id" := AnyString "t1" ]}).
Proof.
  destruct (handleEvent_status_projection (hook world_connected)
              (assistant_update [grep_call false]) eq_refl) as [Hrun _].
  apply (Hrun [] (grep_call false) []); reflexivity.
Defined.

(** When the hook is not connected an event produces no call at all. *)
Lemma handleEvent_disconnected (h : TempotownHook) (ev : MessageEvent) :
  connected h = false -> handleEvent ev h = None.
Proof. intros Hc. unfold handleEvent. rewrite Hc. reflexivity. Qed.

(** ** Shutdown *)

Lemma close_conn_lookup (c : ConnId) (w : World) (k : Conn) :
  conns w !! c = Some k ->
  conns (close_conn c w) !! c = Some (mkConn (conn_endpoint k) true (conn_sent k)).
Proof.
  intros Hk. unfold close_conn. simpl.
  rewrite list_lookup_alter_eq, Hk. reflexivity.
Qed.

Lemma close_conn_lookup_ne (c c' : ConnId) (w : World) :
  c <> c' -> conns (close_conn c w) !! c' = conns w !! c'.
Proof.
  intros Hne. unfold close_conn. simpl. by rewrite list_lookup_alter_ne.
Qed.

(** C2, as the code has it: [Stop] closes the active transport if there is
    one, forgets it and clears the connected flag, and that is all: the
    pending map, the response channels, the lifetime context and the
    feedback channel are left as they were.  Without a connection (as before
    any start) it changes nothing but the log. *)
Theorem Stop_closes_transport_only (w : World) :
  conn (hook (Stop w)) = None
  /\ connected (hook (Stop w)) = false
  /\ (forall c k, conn (hook w) = Some c -> conns w !! c = Some k ->
        conns (Stop w) !! c = Some (mkConn (conn_endpoint k) true (conn_sent k)))
  /\ (forall c, conn (hook w) <> Some c -> conns (Stop w) !! c = conns w !! c)
  /\ pending (hook (Stop w)) = pending (hook w)
  /\ chans (Stop w) = chans w
  /\ ctx (Stop w) = ctx w
  /\ feedbackCh (hook (Stop w)) = feedbackCh (hook w)
  /\ (conn (hook w) = None -> connected (hook w) = false ->
        hook (Stop w) = hook w /\ conns (Stop w) = conns w /\ dials (Stop w) = dials w).
Proof.
  unfold Stop. destruct (conn (hook w)) as [c |] eqn:Hconn; simpl.
  - do 2 (split; [reflexivity |]).
    split. { intros c' k [= <-] Hk. rewrite list_lookup_alter_eq, Hk. reflexivity. }
    split. { intros c' Hne. rewrite list_lookup_alter_ne; [reflexivity | congruence]. }
    do 4 (split; [reflexivity |]). discriminate.
  - do 2 (split; [assumption || reflexivity |]).
    split. { discriminate. }
    split. { reflexivity. }
    do 4 (split; [reflexivity |]).
    intros _ Hc. repeat split.
    destruct (hook w); simpl in *. subst. reflexivity.
Qed.

Lemma Stop_closes_transport_only_witness :
  hook (Stop (init_world sample_hook 0)) = sample_hook
  /\ conns (Stop (init_world sample_hook 0)) = []
  /\ dials (Stop (init_world sample_hook 0)) = [].
Proof.
  destruct (Stop_closes_transport_only (init_world sample_hook 0))
    as (_ & _ & _ & _ & _ & _ & _ & _ & Hfresh).
  apply Hfresh; reflexivity.
Defined.

(** C2, as the spec has it, fails: with one request waiting, [Stop] closes
    the connection but the request's slot stays in the pending map, nothing
    is delivered to its channel and its cancellation case is not ready, so it
    has not failed; and the feedback channel is not closed. *)
Lemma Stop_keeps_pending_and_feedback_open :
  conn_closed <$> conns (Stop world_one_pending) !! 0%nat = Some true
  /\ pending (hook (Stop world_one_pending)) !! 1 = Some 0%nat
  /\ call_select CaseCtxDone 1 0%nat 0 (Stop world_one_pending) = None
  /\ call_select CaseResponse 1 0%nat 0 (Stop world_one_pending) = None
  /\ chan_closed (feedbackCh (hook (Stop world_one_pending))) = false.
Proof. vm_compute. repeat split; reflexivity. Qed.

(** ** The reader task *)

(** C1, as the code has it: when the reader exits on a closed transport or
    a malformed frame it fails no pending request.  The hook, with its
    pending map, and the response channels are exactly as before; a waiter
    still in the map is released by its own [select], at its timeout or on
    cancellation, and removes its own slot then. *)
Theorem readLoop_exit_keeps_pending (e : decode_error) (w : World) :
  snd (readLoop_iter (inl e) w) = Exit
  /\ hook (fst (readLoop_iter (inl e) w)) = hook w
  /\ chans (fst (readLoop_iter (inl e) w)) = chans w
  /\ conns (fst (readLoop_iter (inl e) w)) = conns w
  /\ (forall id ch t0, t0 + CallTimeout <= now w ->
        call_select CaseTimer id ch t0 (fst (readLoop_iter (inl e) w))
        = Some (delete_pending id (fst (readLoop_iter (inl e) w)), inr ErrRequestTimeout))
  /\ (forall id ch t0 c, ctx w = Some c ->
        call_select CaseCtxDone id ch t0 (fst (readLoop_iter (inl e) w))
        = Some (delete_pending id (fst (readLoop_iter (inl e) w)), inr (ErrContext c)))
  /\ (forall id, pending (hook (delete_pending id (fst (readLoop_iter (inl e) w)))) !! id
                 = None).
Proof.
  assert (Hshape : readLoop_iter (inl e) w = (w, Exit)
                   \/ readLoop_iter (inl e) w
                      = (write_log LevelError "read error" [] w, Exit)).
  { unfold readLoop_iter. destruct (ctx w); [by left |]. destruct e; auto. }
  destruct Hshape as [-> | ->]; simpl.
  - repeat split; try reflexivity.
    + intros id ch t0 Ht. destruct (Z.leb_spec (t0 + CallTimeout) (now w)); [reflexivity | lia].
    + intros id ch t0 c ->. reflexivity.
    + intros id. apply lookup_delete_eq.
  - repeat split; try reflexivity.
    + intros id ch t0 Ht. destruct (Z.leb_spec (t0 + CallTimeout) (now w)); [reflexivity | lia].
    + intros id ch t0 c ->. reflexivity.
    + intros id. apply lookup_delete_eq.
Qed.

Lemma readLoop_exit_keeps_pending_witness :
  call_select CaseTimer 1 0%nat 0
    (fst (readLoop_iter (inl ErrEOF) (set_now CallTimeout world_one_pending)))
  = Some (delete_pending 1
            (fst (readLoop_iter (inl ErrEOF) (set_now CallTimeout world_one_pending))),
          inr ErrRequestTimeout).
Proof.
  destruct (readLoop_exit_keeps_pending ErrEOF (set_now CallTimeout world_one_pending))
    as (_ & _ & _ & _ & Htimer & _).
  apply Htimer. vm_compute. discriminate.
Defined.

(** C1, as the spec has it, fails: with one request waiting the reader meets
    end of input, or a malformed frame, and exits; the request's slot is
    still in the pending map and nothing was put on its channel, so the
    waiter has been failed with nothing and keeps waiting. *)
Lemma readLoop_exit_leaves_waiter :
  snd (readLoop_iter (inl ErrEOF) world_one_pending) = Exit
  /\ pending (hook (fst (readLoop_iter (inl ErrEOF) world_one_pending))) !! 1 = Some 0%nat
  /\ call_select CaseResponse 1 0%nat 0
       (fst (readLoop_iter (inl ErrEOF) world_one_pending)) = None
  /\ snd (readLoop_iter (inl ErrSyntax) world_one_pending) = Exit
  /\ pending (hook (fst (readLoop_iter (inl ErrSyntax) world_one_pending))) !! 1 = Some 0%nat
  /\ call_select CaseResponse 1 0%nat 0
       (fst (readLoop_iter (inl ErrSyntax) world_one_pending)) = None.
Proof. vm_compute. repeat split; reflexivity. Qed.

(** A frame whose id the reader cannot route, because it is no number or
    because no slot is waiting under it, changes nothing. *)
Lemma readLoop_iter_unrouted (resp : Response) (w : World) :
  (assert_float64 (resp_ID resp) = None
   \/ exists f, resp_ID resp = AnyFloat64 f
                /\ pending (hook w) !! int64_of_float64 f = None) ->
  readLoop_iter (inr resp) w
  = (w, match ctx w with Some _ => Exit | None => Continue end).
Proof.
  intros Hid. unfold readLoop_iter. destruct (ctx w); [reflexivity |].
  destruct Hid as [Hnone | (f & Hf & Hslot)].
  - destruct (resp_ID resp); simpl in *; try reflexivity. discriminate.
  - rewrite Hf. simpl. rewrite Hslot. reflexivity.
Qed.

(** The reader puts a response on a channel only when the frame's id is a
    number. *)
Lemma readLoop_iter_delivery_numeric (resp : Response) (w : World) :
  chans (fst (readLoop_iter (inr resp) w)) <> chans w ->
  exists f, resp_ID resp = AnyFloat64 f.
Proof.
  intros Hchanged.
  destruct (assert_float64 (resp_ID resp)) as [f |] eqn:Hf.
  - exists f. destruct (resp_ID resp); simpl in Hf; congruence.
  - rewrite readLoop_iter_unrouted in Hchanged by auto. simpl in Hchanged.
    contradiction.
Qed.

(** C10: a response frame whose id is present but is not a JSON number (it
    did not decode to a [float64]) is ignored by the reader: the world is
    unchanged, so no channel received it, and a caller whose response case
    was not ready before is no readier after; conversely a channel changes
    only for a numeric id. *)
Theorem readLoop_ignores_non_numeric_id (resp : Response) (w : World) :
  (forall f, resp_ID resp <> AnyFloat64 f) ->
  fst (readLoop_iter (inr resp) w) = w
  /\ snd (readLoop_iter (inr resp) w) <> Blocked
  /\ (ctx w = None -> snd (readLoop_iter (inr resp) w) = Continue)
  /\ (forall id ch t0,
        call_select CaseResponse id ch t0 w = None ->
        call_select CaseResponse id ch t0 (fst (readLoop_iter (inr resp) w)) = None)
  /\ (forall resp' w',
        chans (fst (readLoop_iter (inr resp') w')) <> chans w' ->
        exists f, resp_ID resp' = AnyFloat64 f).
Proof.
  intros Hnot.
  assert (Hnone : assert_float64 (resp_ID resp) = None).
  { destruct (resp_ID resp); simpl; try reflexivity. exfalso. by eapply Hnot. }
  rewrite readLoop_iter_unrouted by auto. simpl.
  split; [reflexivity |].
  split; [destruct (ctx w); discriminate |].
  split; [intros ->; reflexivity |].
  split; [auto |].
  apply readLoop_iter_delivery_numeric.
Qed.

Lemma readLoop_ignores_non_numeric_id_witness :
  fst (readLoop_iter (inr string_id_response) world_one_pending) = world_one_pending
  /\ pending (hook world_one_pending) !! 1 = Some 0%nat
  /\ call_select CaseResponse 1 0%nat 0
       (fst (readLoop_iter (inr string_id_response) world_one_pending)) = None.
Proof.
  destruct (readLoop_ignores_non_numeric_id string_id_response world_one_pending)
    as (Hsame & _ & _ & Hwait & _).
  { intros f. discriminate. }
  split; [exact Hsame |].
  split; [reflexivity |].
  apply Hwait. reflexivity.
Defined.

(** With a numeric id the same frame is delivered and the slot removed. *)
Example readLoop_delivers_numeric_id :
  let w := fst (readLoop_iter (reply 1 "{protocolVersion:2024-11-05}") world_one_pending) in
  pending (hook w) = ∅
  /\ chan_buf <$> chans w !! 0%nat
     = Some [response_for 1 "{protocolVersion:2024-11-05}"].
Proof. vm_compute. split; reflexivity. Qed.

(** ** The submit path's wait *)

(** C9: the [select] in [call] fires on the first ready case of three: a
    response on the caller's channel, the 30-second timer, or the end of the
    lifetime context.  On timeout and on cancellation the caller removes its
    slot and fails with the timeout error, respectively the context's error;
    and a response that arrives once the slot is gone leaves the world
    exactly as it was: nothing is logged, nothing fails, the reader goes on. *)
Theorem call_select_outcomes (id : Z) (ch : ChanId) (t0 : Z) (w : World) :
  CallTimeout = 30 * Second
  /\ (is_Some (call_select CaseTimer id ch t0 w) <-> t0 + CallTimeout <= now w)
  /\ (is_Some (call_select CaseCtxDone id ch t0 w) <-> is_Some (ctx w))
  /\ (is_Some (call_select CaseResponse id ch t0 w)
      <-> exists c resp rest, chans w !! ch = Some c /\ chan_buf c = resp :: rest)
  /\ (t0 + CallTimeout <= now w ->
      call_select CaseTimer id ch t0 w = Some (delete_pending id w, inr ErrRequestTimeout))
  /\ (forall e, ctx w = Some e ->
      call_select CaseCtxDone id ch t0 w = Some (delete_pending id w, inr (ErrContext e)))
  /\ pending (hook (delete_pending id w)) !! id = None
  /\ (forall resp f,
        resp_ID resp = AnyFloat64 f -> int64_of_float64 f = id ->
        readLoop_iter (inr resp) (delete_pending id w)
        = (delete_pending id w, match ctx w with Some _ => Exit | None => Continue end)).
Proof.
  split; [reflexivity |].
  split.
  { simpl. destruct (Z.leb_spec (t0 + CallTimeout) (now w)); split; intros Hx;
      try lia; try (eexists; reflexivity). by destruct Hx. }
  split.
  { simpl. destruct (ctx w); split; intros [x Hx]; try discriminate; eauto. }
  split.
  { simpl. destruct (chans w !! ch) as [c |] eqn:Hc.
    - unfold try_recv. destruct (chan_buf c) as [| resp rest] eqn:Hbuf.
      + split; [intros [x Hx]; discriminate |].
        intros (c' & r & rest & [= <-] & Hb). congruence.
      + split; [intros _; eauto |].
        intros _. destruct (resp_Error resp); eexists; reflexivity.
    - split; [intros [x Hx]; discriminate |].
      intros (c' & r & rest & Hx & _). discriminate. }
  split.
  { intros Ht. simpl. destruct (Z.leb_spec (t0 + CallTimeout) (now w)); [reflexivity | lia]. }
  split.
  { intros e He. simpl. rewrite He. reflexivity. }
  split.
  { simpl. apply lookup_delete_eq. }
  intros resp f Hf Hid.
  rewrite readLoop_iter_unrouted; [reflexivity |].
  right. exists f. split; [exact Hf |]. rewrite Hid. simpl. apply lookup_delete_eq.
Qed.

Lemma call_select_outcomes_witness :
  call_select CaseTimer 1 0%nat 0 (set_now CallTimeout world_one_pending)
  = Some (delete_pending 1 (set_now CallTimeout world_one_pending), inr ErrRequestTimeout)
  /\ readLoop_iter (reply 1 "{protocolVersion:2024-11-05}")
                   (delete_pending 1 (set_now CallTimeout world_one_pending))
     = (delete_pending 1 (set_now CallTimeout world_one_pending), Continue).
Proof.
  destruct (call_select_outcomes 1 0%nat 0 (set_now CallTimeout world_one_pending))
    as (_ & _ & _ & _ & Htimer & _ & _ & Hlate).
  split.
  - apply Htimer. vm_compute. discriminate.
  - apply (Hlate (response_for 1 "{protocolVersion:2024-11-05}") (float64_of_Z 1));
      reflexivity.
Defined.

(** ** Tool calls and the connection *)

Lemma same_transport_refl (w : World) : same_transport w w.
Proof. unfold same_transport. auto. Qed.

Lemma same_transport_trans (w1 w2 w3 : World) :
  same_transport w1 w2 -> same_transport w2 w3 -> same_transport w1 w3.
Proof.
  unfold same_transport. intros (A1 & A2 & A3 & A4 & A5) (B1 & B2 & B3 & B4 & B5).
  split; [congruence |]. split; [congruence |]. split; [congruence |].
  split; [congruence |]. intros c. rewrite B5. apply A5.
Qed.

Lemma same_transport_hook_only (w : World) (f : TempotownHook -> TempotownHook) :
  (forall h, connected (f h) = connected h /\ conn (f h) = conn h
             /\ encoder (f h) = encoder h /\ decoder (f h) = decoder h) ->
  same_transport w (with_hook f w).
Proof.
  intros Hf. destruct (Hf (hook w)) as (A & B & C & D).
  unfold same_transport. simpl. auto.
Qed.

Lemma delete_pending_same_transport (id : Z) (w : World) :
  same_transport w (delete_pending id w).
Proof. apply same_transport_hook_only. intros h. simpl. auto. Qed.

Lemma encode_same_transport (c : ConnId) (f : Frame) (ok : bool) (w : World) :
  same_transport w (fst (encode c f ok w)).
Proof.
  unfold encode. destruct (conns w !! c) as [k |] eqn:Hk; [| apply same_transport_refl].
  destruct ok; simpl; [| apply same_transport_refl].
  destruct (conn_closed k) eqn:Hclosed; simpl; [apply same_transport_refl |].
  unfold same_transport. simpl. repeat split; try reflexivity.
  intros c'. destruct (decide (c = c')) as [<- | Hne].
  - rewrite list_lookup_insert_eq by (by eapply lookup_lt_Some).
    rewrite Hk. simpl. congruence.
  - by rewrite list_lookup_insert_ne.
Qed.

Lemma readLoop_iter_same_transport d (w : World) :
  same_transport w (fst (readLoop_iter d w)).
Proof.
  unfold readLoop_iter. destruct (ctx w); [apply same_transport_refl |].
  destruct d as [e | resp].
  - destruct e; simpl; unfold same_transport; simpl; auto.
  - destruct (resp_ID resp); simpl; try apply same_transport_refl.
    destruct (pending (hook w) !! int64_of_float64 f); [| apply same_transport_refl].
    destruct (chans w !! n) as [c |]; [| apply same_transport_refl].
    destruct (chan_full c); [apply same_transport_refl |].
    simpl. unfold same_transport. simpl. auto.
Qed.

Lemma readLoop_same_transport ds (w : World) :
  same_transport w (fst (readLoop ds w)).
Proof.
  revert w. induction ds as [| d ds IH]; intros w; simpl; [apply same_transport_refl |].
  pose proof (readLoop_iter_same_transport d w) as Hd.
  destruct (readLoop_iter d w) as [w' st]. simpl in Hd.
  destruct st; simpl; try exact Hd.
  eapply same_transport_trans; [exact Hd | apply IH].
Qed.

Lemma while_waiting_same_transport (e : waiting) (w : World) :
  same_transport w (while_waiting e w).
Proof.
  unfold while_waiting.
  eapply same_transport_trans; [apply readLoop_same_transport |].
  destruct (ctx _), (cancelled e); unfold same_transport; simpl; auto.
Qed.

Lemma call_select_same_transport k id ch t0 (w w' : World) r :
  call_select k id ch t0 w = Some (w', r) -> same_transport w w'.
Proof.
  destruct k; simpl.
  - destruct (ctx w); intros [= <- <-]. apply delete_pending_same_transport.
  - destruct (chans w !! ch) as [c |]; [| discriminate].
    destruct (try_recv c) as [[resp c'] |]; [| discriminate].
    destruct (resp_Error resp); intros [= <- <-]; unfold same_transport; simpl; auto.
  - destruct (t0 + CallTimeout <=? now w); intros [= <- <-].
    apply delete_pending_same_transport.
Qed.

Section CallFacts.
Context `{EncodingJSON}.

(** Whatever its outcome, a [call] neither closes a connection nor touches
    the connected flag. *)
Lemma call_same_transport method params s (w w' : World) r :
  call method params s w = Some (w', r) -> same_transport w w'.
Proof.
  unfold call. simpl.
  set (w1 := set_chans _ _).
  assert (H1 : same_transport w w1) by (unfold same_transport; simpl; auto).
  unfold call_send. simpl.
  destruct (encoder (hook w)) as [c |]; [| discriminate].
  set (w1' := with_hook _ w1).
  assert (H1' : same_transport w w1') by (unfold same_transport; simpl; auto).
  pose proof (encode_same_transport c
                (FrameRequest "2.0" (wrap_int64 (requestID (hook w) + 1)) method params)
                (io_ok s) w1') as H2.
  destruct (encode c _ (io_ok s) w1') as [w2 ok]. simpl in H2.
  destruct ok.
  - intros Hsel. apply call_select_same_transport in Hsel.
    eapply same_transport_trans; [exact H1' |].
    eapply same_transport_trans; [exact H2 |].
    eapply same_transport_trans; [apply while_waiting_same_transport | exact Hsel].
  - intros [= <- <-].
    eapply same_transport_trans; [exact H1' |].
    eapply same_transport_trans; [exact H2 | apply delete_pending_same_transport].
Qed.

(** On an open connection a request whose write goes through is sent. *)
Lemma call_send_proceeds id ch method params (w : World) c k :
  encoder (hook w) = Some c -> conns w !! c = Some k -> conn_closed k = false ->
  exists w', call_send id ch method params true w = Some (w', true)
    /\ conn_sent <$> conns w' !! c
       = Some (conn_sent k ++ [FrameRequest "2.0" id method params])%list.
Proof.
  intros He Hk Hopen. unfold call_send, encode. rewrite He. simpl.
  rewrite Hk, Hopen. simpl. eexists. split; [reflexivity |]. simpl.
  rewrite list_lookup_insert_eq by (by eapply lookup_lt_Some). reflexivity.
Qed.

End CallFacts.

(** C4: a [tools/call] whose decoded result has [isError] set makes
    [callTool] fail that call with the tool error carrying the first content
    block's text (the generic one when there is no block), and the
    connection is untouched: the connected flag, the connection and its
    encoder are as before, nothing was closed, and on a connected hook the
    next request's write on the same transport goes out. *)
Theorem callTool_error_result_isolated `{EncodingJSON}
    (name : string) (args : gmap string any) (s : schedule)
    (w w' : World) (resp : Response) (result : ToolCallResult) :
  call "tools/call" (callTool_params name args) s w = Some (w', inl resp) ->
  unmarshal_ToolCallResult (resp_Result resp) = Some result ->
  result_IsError result = true ->
  callTool name args s w = Some (w', inr (tool_error result))
  /\ (forall c rest, result_Content result = c :: rest ->
        tool_error result = ErrToolText (content_Text c))
  /\ (result_Content result = [] -> tool_error result = ErrTool)
  /\ same_transport w w'
  /\ (forall c k, connected (hook w) = true -> encoder (hook w) = Some c ->
        conns w !! c = Some k -> conn_closed k = false ->
        connected (hook w') = true
        /\ forall method params,
             exists k' w'',
               conns (snd (call_alloc w')) !! c = Some k'
               /\ call_send (fst (fst (call_alloc w'))) (snd (fst (call_alloc w')))
                            method params true (snd (call_alloc w'))
                  = Some (w'', true)
               /\ conn_sent <$> conns w'' !! c
                  = Some (conn_sent k'
                          ++ [FrameRequest "2.0" (fst (fst (call_alloc w'))) method params])%list).
Proof.
  intros Hcall Hdec Herr.
  pose proof (call_same_transport _ _ _ _ _ _ Hcall) as Hsame.
  split.
  { unfold callTool. rewrite Hcall. simpl. rewrite Hdec, Herr.
    unfold tool_error. destruct (result_Content result); reflexivity. }
  split. { intros c rest Hc. unfold tool_error. rewrite Hc. reflexivity. }
  split. { intros Hc. unfold tool_error. rewrite Hc. reflexivity. }
  split; [exact Hsame |].
  intros c k Hconn Henc Hk Hopen.
  destruct Hsame as (S1 & S2 & S3 & S4 & S5).
  split; [congruence |].
  intros method params.
  pose proof (S5 c) as Hc. rewrite Hk in Hc. simpl in Hc.
  destruct (conns w' !! c) as [k' |] eqn:Hk'; [| discriminate].
  simpl in Hc. injection Hc as Hc.
  exists k'.
  destruct (call_send_proceeds (fst (fst (call_alloc w'))) (snd (fst (call_alloc w')))
              method params (snd (call_alloc w')) c k') as (w'' & Hsend & Hsent).
  - simpl. congruence.
  - simpl. exact Hk'.
  - congruence.
  - exists w''. split; [exact Hk' |]. split; [exact Hsend | exact Hsent].
Qed.

Lemma callTool_error_result_isolated_witness :
  callTool "report_status" status_args tool_error_schedule world_connected
  = Some (world_after_tool_error, inr (ErrToolText "nope"))
  /\ same_transport world_connected world_after_tool_error
  /\ connected (hook world_after_tool_error) = true.
Proof.
  assert (Hcall : call "tools/call" (callTool_params "report_status" status_args)
                       tool_error_schedule world_connected
                  = Some (world_after_tool_error,
                          inl (response_for 3 "{content:[{type:text,text:nope}],isError:true}")))
    by (vm_compute; reflexivity).
  assert (Hdec : unmarshal_ToolCallResult
                   (resp_Result (response_for 3 "{content:[{type:text,text:nope}],isError:true}"))
                 = Some (mkToolCallResult [mkContent "text" "nope"] true))
    by (vm_compute; reflexivity).
  destruct (@callTool_error_result_isolated sample_json
              "report_status" status_args tool_error_schedule
              world_connected world_after_tool_error _ _ Hcall Hdec eq_refl)
    as (Hfail & _ & _ & Hsame & Hnext).
  split; [exact Hfail |]. split; [exact Hsame |].
  assert (Hconn : connected (hook world_connected) = true) by (vm_compute; reflexivity).
  assert (Henc : encoder (hook world_connected) = Some 0%nat) by (vm_compute; reflexivity).
  assert (Hk : conns world_connected !! 0%nat
               = Some (mkConn "127.0.0.1:9090" false
                   [FrameRequest "2.0" 1 "initialize" initialize_params;
                    FrameNotification "2.0" "initialized" ParamsNil;
                    FrameRequest "2.0" 2 "tools/call"
                      (callTool_params "register_agent" (registerAgent_args sample_hook))]))
    by (vm_compute; reflexivity).
  exact (proj1 (Hnext _ _ Hconn Henc Hk eq_refl)).
Defined.

(** The poll that follows a failed [report_status] is sent and answered on
    the same connection. *)
Example poll_after_tool_error :
  exists w, pollFeedback (answered 4 "{content:[{type:text,text:{items:[]}}]}")
                         world_after_tool_error = Some w
    /\ connected (hook w) = true
    /\ length <$> (conn_sent <$> conns w !! 0%nat) = Some 5%nat.
Proof. eexists. vm_compute. repeat split; reflexivity. Qed.

(** ** Registration *)

(** C8, as the code has it: after a successful [register_agent] call the
    registration succeeds whatever the text is and the phase becomes
    [idle]; a text that parses with a non-empty [agent_id] makes that value
    the agent id; otherwise (the text does not parse, or gives no or an empty
    [agent_id]) the agent id is left as it was, which is empty on a hook
    that never had one. *)
Theorem registerAgent_finish_adopts `{EncodingJSON} (text : string) (w : World) :
  snd (registerAgent_finish (inl text) w) = None
  /\ phase (hook (fst (registerAgent_finish (inl text) w))) = "idle"
  /\ (forall a, unmarshal_AgentID text = Some a -> a <> EmptyString ->
        agentID (hook (fst (registerAgent_finish (inl text) w))) = a)
  /\ (unmarshal_AgentID text = None \/ unmarshal_AgentID text = Some EmptyString ->
        agentID (hook (fst (registerAgent_finish (inl text) w))) = agentID (hook w))
  /\ (unmarshal_AgentID text = None -> agentID (hook w) = EmptyString ->
        agentID (hook (fst (registerAgent_finish (inl text) w))) = EmptyString)
  /\ same_transport w (fst (registerAgent_finish (inl text) w)).
Proof.
  unfold registerAgent_finish. simpl.
  split; [reflexivity |].
  split; [reflexivity |].
  split.
  { intros a -> Hne. destruct (decide (a = EmptyString)); [contradiction | reflexivity]. }
  split.
  { intros [-> | ->]; reflexivity. }
  split.
  { intros -> Hempty. exact Hempty. }
  destruct (unmarshal_AgentID text) as [a |]; [destruct (decide (a = EmptyString)) |];
    unfold same_transport; simpl; auto.
Qed.

Lemma registerAgent_finish_adopts_witness :
  agentID (hook (fst (registerAgent_finish (inl "{agent_id:A-1}")
                        (init_world sample_hook 0)))) = "A-1"
  /\ agentID (hook (fst (registerAgent_finish (inl "registered")
                           (init_world sample_hook 0)))) = EmptyString.
Proof.
  split.
  - destruct (@registerAgent_finish_adopts sample_json "{agent_id:A-1}"
                (init_world sample_hook 0)) as (_ & _ & Hadopt & _).
    apply Hadopt; [reflexivity | discriminate].
  - destruct (@registerAgent_finish_adopts sample_json "registered"
                (init_world sample_hook 0)) as (_ & _ & _ & _ & Hempty & _).
    apply Hempty; reflexivity.
Defined.

(** C8, as the spec has it, fails on a reconnect: the hook registered once
    and was given [A-1]; the connection drops, the hook connects again, and
    this time the [register_agent] text does not parse.  Registration
    succeeds, and the agent id is not empty: it is still [A-1]. *)
Lemma registerAgent_unparsed_keeps_old_id :
  unmarshal_AgentID "registered" = None
  /\ connected (hook world_reconnected) = true
  /\ phase (hook world_reconnected) = "idle"
  /\ agentID (hook world_reconnected) = "A-1"
  /\ agentID (hook world_reconnected) <> EmptyString.
Proof. vm_compute. repeat split; try reflexivity. discriminate. Qed.

(** ** Request ids over a run *)

(** Case analysis on every [match] a step evaluates. *)
Ltac step_cases :=
  repeat match goal with
         | H : Some _ = Some _ |- _ => injection H as H; subst
         | H : None = Some _ |- _ => discriminate H
         | H : (_, _) = (_, _) |- _ => injection H as ? ?; subst
         | H : context [match ?x with _ => _ end] |- _ => destruct x eqn:?; simpl in *
         | |- context [match ?x with _ => _ end] => destruct x eqn:?; simpl in *
         end.

Lemma enqueue_items_requestID (items : list FeedbackPayload) (w : World) :
  requestID (hook (enqueue_items items w)) = requestID (hook w).
Proof.
  revert w. induction items as [| item items IH]; intros w; simpl; [reflexivity |].
  rewrite IH. unfold offer_item. destruct (try_send _ _); reflexivity.
Qed.

Lemma readLoop_iter_requestID d (w : World) :
  requestID (hook (fst (readLoop_iter d w))) = requestID (hook w).
Proof. unfold readLoop_iter. step_cases; reflexivity. Qed.

Section IdFacts.
Context `{EncodingJSON}.

(** Only [call]'s first line moves the request counter. *)
Lemma step_requestID (a : Action) (w w' : World) :
  step a w = Some w' ->
  requestID (hook w')
  = match a with
    | ActAlloc => wrap_int64 (requestID (hook w) + 1)
    | _ => requestID (hook w)
    end.
Proof.
  destruct a; simpl; intros Hstep.
  - injection Hstep as <-. unfold connect_dial. destruct dial_ok; reflexivity.
  - injection Hstep as <-. reflexivity.
  - injection Hstep as <-. reflexivity.
  - injection Hstep as <-. reflexivity.
  - injection Hstep as <-. reflexivity.
  - unfold call_send, encode in Hstep. step_cases; reflexivity.
  - injection Hstep as <-. reflexivity.
  - destruct k; simpl in Hstep; unfold try_recv in *; step_cases; reflexivity.
  - injection Hstep as <-. unfold sendNotification, encode. step_cases; reflexivity.
  - pose proof (readLoop_iter_requestID d w) as Hd.
    destruct (readLoop_iter d w) as [w1 st]. simpl in Hd.
    destruct st; try discriminate; injection Hstep as <-; exact Hd.
  - injection Hstep as <-. unfold registerAgent_finish. step_cases; reflexivity.
  - injection Hstep as <-. unfold pollFeedback_finish.
    step_cases; try reflexivity. apply enqueue_items_requestID.
  - injection Hstep as <-. unfold offer_item. step_cases; reflexivity.
  - unfold feedback_recv in Hstep. step_cases; reflexivity.
  - injection Hstep as <-. unfold Stop. step_cases; reflexivity.
  - step_cases; reflexivity.
  - step_cases; reflexivity.
Qed.

End IdFacts.

Lemma seqZ_sorted (m : Z) (n : nat) : StronglySorted Z.lt (seqZ m (Z.of_nat n)).
Proof.
  revert m. induction n as [| n IH]; intros m.
  - rewrite seqZ_nil by lia. constructor.
  - rewrite seqZ_cons by lia. replace (Z.pred (Z.of_nat (S n))) with (Z.of_nat n) by lia.
    constructor; [apply IH |].
    apply Forall_seqZ. intros k Hk. lia.
Qed.

Lemma lifetimes_concat (evs : list id_event) (cur : list Z) :
  concat (lifetimes evs cur) = (cur ++ ids_of evs)%list.
Proof.
  revert cur. induction evs as [| ev evs IH]; intros cur; simpl.
  - by rewrite app_nil_r.
  - destruct ev as [| id]; simpl.
    + by rewrite IH.
    + rewrite IH, <- app_assoc. reflexivity.
Qed.

(** Every lifetime's group is a stretch of the run's id sequence. *)
Lemma lifetimes_segment (evs : list id_event) (cur g : list Z) :
  g ∈ lifetimes evs cur ->
  exists pre post, (cur ++ ids_of evs = pre ++ g ++ post)%list.
Proof.
  revert cur. induction evs as [| ev evs IH]; intros cur; simpl.
  - intros Hg. apply list_elem_of_singleton in Hg as ->.
    exists [], []. by rewrite !app_nil_r.
  - destruct ev as [| id]; simpl.
    + intros Hg. apply elem_of_cons in Hg as [-> | Hg].
      * exists [], (ids_of evs). reflexivity.
      * destruct (IH [] Hg) as (pre & post & Heq). simpl in Heq.
        exists (cur ++ pre)%list, post. rewrite Heq, <- app_assoc. reflexivity.
    + intros Hg. destruct (IH _ Hg) as (pre & post & Heq).
      exists pre, post. rewrite <- Heq, <- app_assoc. reflexivity.
Qed.

Section IdTheorems.
Context `{EncodingJSON}.

Lemma ids_of_run (acts : list Action) (w : World) :
  0 <= requestID (hook w) ->
  requestID (hook w) + Z.of_nat (length (ids_of (id_events acts w))) <= max_int64 ->
  ids_of (id_events acts w)
  = seqZ (requestID (hook w) + 1) (Z.of_nat (length (ids_of (id_events acts w)))).
Proof.
  revert w. induction acts as [| a acts IH]; intros w Hpos Hbound; simpl in *.
  - by rewrite seqZ_nil.
  - destruct (step a w) as [w' |] eqn:Hstep; [| by rewrite seqZ_nil].
    pose proof (step_requestID a w w' Hstep) as Hreq.
    destruct a; simpl in *;
      try (rewrite <- Hreq; apply IH; rewrite Hreq; assumption).
    + destruct dial_ok; simpl in *; rewrite <- Hreq; apply IH; rewrite Hreq; assumption.
    + assert (Hwrap : wrap_int64 (requestID (hook w) + 1) = requestID (hook w) + 1).
      { apply wrap_int64_small. unfold min_int64, max_int64 in *. lia. }
      rewrite Hwrap in *.
      rewrite (seqZ_cons (requestID (hook w) + 1)) by lia.
      f_equal.
      replace (Z.pred (Z.of_nat (S (length (ids_of (id_events acts w'))))))
        with (Z.of_nat (length (ids_of (id_events acts w')))) by lia.
      replace (Z.succ (requestID (hook w) + 1)) with (requestID (hook w') + 1) by lia.
      apply IH; lia.
Qed.

(** C5, as the code has it: the request counter belongs to the hook and is
    never reset, so over a whole run (and as long as it stays within
    [int64]) the ids handed out are the consecutive integers after the
    counter's start.  The ids of each transport lifetime are a stretch of
    that sequence, hence strictly increasing and positive; the very first
    id of a new hook is 1, and a later lifetime continues where the one
    before it stopped. *)
Theorem request_ids_consecutive_over_run (acts : list Action) (w : World) :
  0 <= requestID (hook w) ->
  requestID (hook w) + Z.of_nat (length (ids_of (id_events acts w))) <= max_int64 ->
  ids_of (id_events acts w)
  = seqZ (requestID (hook w) + 1) (Z.of_nat (length (ids_of (id_events acts w))))
  /\ concat (lifetimes (id_events acts w) []) = ids_of (id_events acts w)
  /\ (forall g, g ∈ lifetimes (id_events acts w) [] ->
        StronglySorted Z.lt g /\ Forall (fun id => 0 < id) g)
  /\ (forall id rest, requestID (hook w) = 0 ->
        ids_of (id_events acts w) = id :: rest -> id = 1).
Proof.
  intros Hpos Hbound.
  pose proof (ids_of_run acts w Hpos Hbound) as Hids.
  split; [exact Hids |].
  split; [apply lifetimes_concat |].
  split.
  - intros g Hg. destruct (lifetimes_segment _ _ _ Hg) as (pre & post & Heq).
    simpl in Heq.
    assert (Hsorted : StronglySorted Z.lt (pre ++ g ++ post)).
    { rewrite <- Heq, Hids. apply seqZ_sorted. }
    assert (Hall : Forall (fun id => 0 < id) (pre ++ g ++ post)).
    { rewrite <- Heq, Hids. apply Forall_seqZ. intros k Hk. lia. }
    split.
    + apply StronglySorted_app_1_r in Hsorted.
      by apply StronglySorted_app_1_l in Hsorted.
    + apply Forall_app in Hall as [_ Hall]. by apply Forall_app in Hall as [Hall _].
  - intros id rest Hzero Hcons. rewrite Hcons in Hids. simpl in Hids.
    rewrite seqZ_cons in Hids by lia. injection Hids as Hid _. lia.
Qed.

End IdTheorems.

Lemma request_ids_consecutive_over_run_witness :
  ids_of (id_events two_lifetimes (init_world sample_hook 0)) = seqZ 1 4
  /\ forall g, g ∈ lifetimes (id_events two_lifetimes (init_world sample_hook 0)) [] ->
       StronglySorted Z.lt g /\ Forall (fun id => 0 < id) g.
Proof.
  destruct (@request_ids_consecutive_over_run sample_json two_lifetimes
              (init_world sample_hook 0)) as (Hids & _ & Hgroups & _).
  - vm_compute. discriminate.
  - vm_compute. discriminate.
  - split; [exact Hids | exact Hgroups].
Defined.

(** C5, as the spec has it, fails: in a run with two transport lifetimes
    the first lifetime's requests carry ids 1 and 2, and the requests of the
    second lifetime carry 3 and 4; its ids do not start at 1. *)
Lemma second_lifetime_does_not_start_at_one :
  is_Some (run two_lifetimes (init_world sample_hook 0))
  /\ lifetimes (id_events two_lifetimes (init_world sample_hook 0)) []
     = [[]; [1; 2]; [3; 4]]
  /\ exists g, lifetimes (id_events two_lifetimes (init_world sample_hook 0)) [] !! 2%nat
               = Some g
       /\ head g = Some 3 /\ head g <> Some 1.
Proof.
  split; [vm_compute; eexists; reflexivity |].
  split; [vm_compute; reflexivity |].
  exists [3; 4]. split; [vm_compute; reflexivity |].
  split; [reflexivity | discriminate].
Qed.

(** The ids are increasing in the order [call] takes them from the counter,
    which happens before the mutex is taken: two concurrent callers can write
    their requests in the other order. *)
Example racing_reports_written_out_of_order :
  ids_of (id_events racing_reports world_connected) = [3; 4]
  /\ match run racing_reports world_connected with
     | Some w => request_ids <$> (conn_sent <$> conns w !! 0%nat)
     | None => None
     end = Some [1; 2; 4; 3].
Proof. vm_compute. split; reflexivity. Qed.

(** ** The feedback channel *)

Lemma offer_item_feedback (item : FeedbackPayload) (w : World) :
  let room := (chan_cap (feedbackCh (hook w)) - length (chan_buf (feedbackCh (hook w))))%nat in
  chan_buf (feedbackCh (hook (offer_item item w)))
  = (chan_buf (feedbackCh (hook w)) ++ take room [item])%list
  /\ logged (offer_item item w) = (logged w ++ (dropped_warning <$> drop room [item]))%list
  /\ chan_cap (feedbackCh (hook (offer_item item w))) = chan_cap (feedbackCh (hook w))
  /\ chan_closed (feedbackCh (hook (offer_item item w))) = chan_closed (feedbackCh (hook w)).
Proof.
  unfold offer_item, try_send, chan_full.
  destruct (Nat.leb_spec (chan_cap (feedbackCh (hook w)))
                         (length (chan_buf (feedbackCh (hook w))))) as [Hfull | Hroom]; simpl.
  - replace (_ - _)%nat with 0%nat by lia. simpl. by rewrite app_nil_r.
  - destruct (chan_cap (feedbackCh (hook w)) - length (chan_buf (feedbackCh (hook w))))%nat
      as [| n] eqn:Hn; [lia |].
    simpl. rewrite take_nil, drop_nil. simpl. by rewrite app_nil_r.
Qed.

(** One poll's loop: the items that fit go onto the channel in the order
    given, each of the others is dropped with its warning, and nothing else
    changes. *)
Lemma enqueue_items_spec (items : list FeedbackPayload) (w : World) :
  let room := (chan_cap (feedbackCh (hook w)) - length (chan_buf (feedbackCh (hook w))))%nat in
  chan_buf (feedbackCh (hook (enqueue_items items w)))
  = (chan_buf (feedbackCh (hook w)) ++ take room items)%list
  /\ logged (enqueue_items items w) = (logged w ++ (dropped_warning <$> drop room items))%list
  /\ chan_cap (feedbackCh (hook (enqueue_items items w))) = chan_cap (feedbackCh (hook w))
  /\ chan_closed (feedbackCh (hook (enqueue_items items w)))
     = chan_closed (feedbackCh (hook w)).
Proof.
  revert w. induction items as [| item items IH]; intros w; simpl.
  - rewrite take_nil, drop_nil. simpl. by rewrite !app_nil_r.
  - destruct (IH (offer_item item w)) as (Hbuf & Hlog & Hcap & Hcl).
    destruct (offer_item_feedback item w) as (Obuf & Olog & Ocap & Ocl).
    simpl in *. rewrite Hbuf, Hlog, Hcap, Hcl, Obuf, Olog, Ocap, Ocl.
    rewrite length_app.
    destruct (chan_cap (feedbackCh (hook w)) - length (chan_buf (feedbackCh (hook w))))%nat
      as [| n] eqn:Hn; simpl.
    + replace (_ - _)%nat with 0%nat by lia. simpl.
      rewrite !app_nil_r, <- app_assoc. repeat split; reflexivity.
    + rewrite take_nil, drop_nil. simpl.
      replace (chan_cap (feedbackCh (hook w))
               - (length (chan_buf (feedbackCh (hook w))) + 1))%nat with n by lia.
      rewrite app_nil_r, <- app_assoc. repeat split; reflexivity.
Qed.

Lemma readLoop_iter_feedbackCh d (w : World) :
  feedbackCh (hook (fst (readLoop_iter d w))) = feedbackCh (hook w).
Proof. unfold readLoop_iter. step_cases; reflexivity. Qed.

Section FeedbackFacts.
Context `{EncodingJSON}.

(** What one step does to the feedback channel: the buffer followed by the
    polled items that were accepted is what the host read followed by the new
    buffer.  The capacity never changes and the buffer never exceeds it. *)
Lemma step_feedback (a : Action) (w w' : World) :
  step a w = Some w' ->
  (length (chan_buf (feedbackCh (hook w))) <= chan_cap (feedbackCh (hook w)))%nat ->
  chan_cap (feedbackCh (hook w')) = chan_cap (feedbackCh (hook w))
  /\ chan_closed (feedbackCh (hook w')) = chan_closed (feedbackCh (hook w))
  /\ (length (chan_buf (feedbackCh (hook w'))) <= chan_cap (feedbackCh (hook w')))%nat
  /\ exists accepted,
       accepted `sublist_of` items_polled a
       /\ (chan_buf (feedbackCh (hook w)) ++ accepted
           = items_read a w ++ chan_buf (feedbackCh (hook w')))%list.
Proof.
  intros Hstep Hlen.
  assert (Hsame : feedbackCh (hook w') = feedbackCh (hook w) ->
                  items_read a w = [] ->
                  chan_cap (feedbackCh (hook w')) = chan_cap (feedbackCh (hook w))
                  /\ chan_closed (feedbackCh (hook w')) = chan_closed (feedbackCh (hook w))
                  /\ (length (chan_buf (feedbackCh (hook w')))
                      <= chan_cap (feedbackCh (hook w')))%nat
                  /\ exists accepted,
                       accepted `sublist_of` items_polled a
                       /\ (chan_buf (feedbackCh (hook w)) ++ accepted
                           = items_read a w ++ chan_buf (feedbackCh (hook w')))%list).
  { intros -> ->. repeat split; try assumption.
    exists []. split; [apply sublist_nil_l | by rewrite app_nil_r]. }
  destruct a; simpl in Hstep.
  - injection Hstep as <-. apply Hsame; [| reflexivity].
    unfold connect_dial. destruct dial_ok; reflexivity.
  - injection Hstep as <-. by apply Hsame.
  - injection Hstep as <-. by apply Hsame.
  - injection Hstep as <-. by apply Hsame.
  - injection Hstep as <-. by apply Hsame.
  - apply Hsame; [| reflexivity].
    unfold call_send, encode in Hstep. step_cases; reflexivity.
  - injection Hstep as <-. by apply Hsame.
  - apply Hsame; [| reflexivity].
    destruct k; simpl in Hstep; unfold try_recv in *; step_cases; reflexivity.
  - injection Hstep as <-. apply Hsame; [| reflexivity].
    unfold sendNotification, encode. step_cases; reflexivity.
  - apply Hsame; [| reflexivity].
    pose proof (readLoop_iter_feedbackCh d w) as Hd.
    destruct (readLoop_iter d w) as [w1 st]. simpl in Hd.
    destruct st; try discriminate; injection Hstep as <-; exact Hd.
  - injection Hstep as <-. apply Hsame; [| reflexivity].
    unfold registerAgent_finish. step_cases; reflexivity.
  - injection Hstep as <-.
    destruct r as [text | e]; [| by apply Hsame].
    destruct (unmarshal_Items text) as [items |] eqn:Hitems.
    + clear Hsame. unfold pollFeedback_finish. simpl. rewrite Hitems.
      destruct (enqueue_items_spec items w) as (Hbuf & _ & Hcap & Hcl). simpl in *.
      rewrite Hbuf, Hcap, Hcl. repeat split.
      * rewrite length_app, length_take. lia.
      * eexists. split; [apply sublist_take | reflexivity].
    + apply Hsame; [| reflexivity].
      unfold pollFeedback_finish. rewrite Hitems. reflexivity.
  - injection Hstep as <-.
    destruct (offer_item_feedback item w) as (Hbuf & _ & Hcap & Hcl). simpl in *.
    rewrite Hbuf, Hcap, Hcl. repeat split.
    + rewrite length_app, length_take. simpl. lia.
    + eexists. split; [apply sublist_take | reflexivity].
  - clear Hsame. unfold items_read, feedback_recv, try_recv in *.
    destruct (chan_buf (feedbackCh (hook w))) as [| x rest] eqn:Hbuf; [discriminate |].
    simpl in Hstep. injection Hstep as <-. simpl in *.
    split; [reflexivity |]. split; [reflexivity |]. split; [lia |].
    exists []. split; [apply sublist_nil_l | by rewrite app_nil_r].
  - injection Hstep as <-. apply Hsame; [| reflexivity].
    unfold Stop. step_cases; reflexivity.
  - apply Hsame; [| reflexivity]. step_cases; reflexivity.
  - apply Hsame; [| reflexivity]. step_cases; reflexivity.
Qed.

(** Over a run, what the host read followed by what is still buffered is,
    in order, part of what was buffered at the start followed by what the
    polls returned. *)
Lemma run_feedback_order (acts : list Action) (w w' : World) :
  run acts w = Some w' ->
  (length (chan_buf (feedbackCh (hook w))) <= chan_cap (feedbackCh (hook w)))%nat ->
  chan_cap (feedbackCh (hook w')) = chan_cap (feedbackCh (hook w))
  /\ chan_closed (feedbackCh (hook w')) = chan_closed (feedbackCh (hook w))
  /\ (length (chan_buf (feedbackCh (hook w'))) <= chan_cap (feedbackCh (hook w')))%nat
  /\ (feedback_read acts w ++ chan_buf (feedbackCh (hook w')))%list
     `sublist_of` (chan_buf (feedbackCh (hook w)) ++ feedback_polled acts)%list.
Proof.
  revert w. induction acts as [| a acts IH]; intros w Hrun Hlen; simpl in *.
  - injection Hrun as <-. rewrite app_nil_r. repeat split; try assumption. reflexivity.
  - destruct (step a w) as [w1 |] eqn:Hstep; [| discriminate].
    destruct (step_feedback a w w1 Hstep Hlen) as (Hcap & Hcl & Hlen1 & acc & Hacc & Heq).
    destruct (IH w1 Hrun Hlen1) as (Hcap' & Hcl' & Hlen' & Hsub).
    split; [congruence |]. split; [congruence |]. split; [assumption |].
    rewrite <- app_assoc.
    transitivity (items_read a w ++ chan_buf (feedbackCh (hook w1)) ++ feedback_polled acts)%list.
    + apply sublist_app; [reflexivity | exact Hsub].
    + rewrite app_assoc, <- Heq, <- app_assoc.
      apply sublist_app; [reflexivity |].
      apply sublist_app; [exact Hacc | reflexivity].
Qed.

End FeedbackFacts.

(** C6: the feedback channel of a hook has capacity 10, at every point of
    every run.  A poll offers its items in the order the orchestrator
    returned them, each by a send that cannot block: the items that fit are
    appended in that order, each of the others is dropped with a warning
    carrying its source.  Over the whole run, whatever the host reads in
    between, the payloads delivered (read so far, then still buffered) are in
    the order the polls returned them. *)
Theorem feedback_channel_bounded_in_order `{EncodingJSON}
    (c : Config) (h : TempotownHook) (t : Z) (acts : list Action) (w : World) :
  NewTempotownHook c = Some h ->
  run acts (init_world h t) = Some w ->
  chan_cap (feedbackCh h) = 10%nat
  /\ chan_cap (feedbackCh (hook w)) = 10%nat
  /\ (length (chan_buf (feedbackCh (hook w))) <= 10)%nat
  /\ (feedback_read acts (init_world h t) ++ chan_buf (feedbackCh (hook w)))%list
     `sublist_of` feedback_polled acts
  /\ (forall items,
        chan_buf (feedbackCh (hook (enqueue_items items w)))
        = (chan_buf (feedbackCh (hook w))
           ++ take (10 - length (chan_buf (feedbackCh (hook w)))) items)%list
        /\ logged (enqueue_items items w)
           = (logged w
              ++ (dropped_warning
                    <$> drop (10 - length (chan_buf (feedbackCh (hook w)))) items))%list
        /\ (forall text, unmarshal_Items text = Some items ->
              pollFeedback_finish (inl text) w = enqueue_items items w)
        /\ run (ActOffer <$> items) w = Some (enqueue_items items w))
  /\ (forall item,
        log_Level (dropped_warning item) = LevelWarn
        /\ log_Attrs (dropped_warning item) = [("source", fb_Source item)]).
Proof.
  intros Hnew Hrun.
  assert (Hfresh : feedbackCh h = make_chan 10).
  { unfold NewTempotownHook in Hnew.
    destruct (decide (Endpoint c = EmptyString)); [discriminate |].
    injection Hnew as <-. reflexivity. }
  destruct (run_feedback_order acts (init_world h t) w Hrun)
    as (Hcap & _ & Hlen & Hsub).
  { simpl. rewrite Hfresh. simpl. lia. }
  simpl in Hcap, Hsub. rewrite Hfresh in Hcap, Hsub. simpl in Hcap, Hsub.
  split; [by rewrite Hfresh |].
  split; [exact Hcap |].
  split; [by rewrite <- Hcap |].
  split; [exact Hsub |].
  split; [| by intros item].
  intros items.
  destruct (enqueue_items_spec items w) as (Hbuf & Hlog & _). simpl in Hbuf, Hlog.
  rewrite Hcap in Hbuf, Hlog.
  split; [exact Hbuf |]. split; [exact Hlog |].
  split.
  - intros text Htext. unfold pollFeedback_finish. by rewrite Htext.
  - clear. revert w. induction items as [| item items IH]; intros w; simpl; auto.
Qed.

Lemma feedback_channel_bounded_in_order_witness :
  exists w, run polling_run (init_world sample_hook 0) = Some w
    /\ chan_cap (feedbackCh (hook w)) = 10%nat
    /\ (feedback_read polling_run (init_world sample_hook 0)
        ++ chan_buf (feedbackCh (hook w)))%list
       `sublist_of` feedback_polled polling_run.
Proof.
  assert (Hnew : NewTempotownHook sample_config = Some sample_hook)
    by (vm_compute; reflexivity).
  destruct (run polling_run (init_world sample_hook 0)) as [w |] eqn:Hrun;
    [| vm_compute in Hrun; discriminate].
  exists w.
  destruct (@feedback_channel_bounded_in_order sample_json sample_config sample_hook 0
              polling_run w Hnew Hrun) as (_ & Hcap & _ & Hsub & _).
  split; [reflexivity |]. split; [exact Hcap | exact Hsub].
Defined.

(** Twenty items offered while nobody reads: the first ten are buffered in
    order and the other ten are dropped, each with its warning. *)
Example twenty_items_ten_delivered :
  chan_buf (feedbackCh (hook (enqueue_items twenty_items (init_world sample_hook 0))))
  = take 10 twenty_items
  /\ logged (enqueue_items twenty_items (init_world sample_hook 0))
     = dropped_warning <$> drop 10 twenty_items.
Proof. vm_compute. split; reflexivity. Qed.

(** The first two reads after a poll that returned [m1] and [m2] give them
    in that order. *)
Example two_items_read_in_order :
  feedback_read
    [ ActPolled (inl "{items:[{message:m1,source:t},{message:m2,source:t}]}");
      ActFeedbackRecv; ActFeedbackRecv ]
    (init_world sample_hook 0)
  = [item_m1; item_m2].
Proof. vm_compute. reflexivity. Qed.

(** ** What an RPC changes *)

Lemma untouched_by_rpc_refl (w : World) : untouched_by_rpc w w.
Proof. unfold untouched_by_rpc. repeat split. Qed.

Lemma untouched_by_rpc_trans (w1 w2 w3 : World) :
  untouched_by_rpc w1 w2 -> untouched_by_rpc w2 w3 -> untouched_by_rpc w1 w3.
Proof.
  unfold untouched_by_rpc.
  intros (A1 & A2 & A3 & A4 & A5 & A6 & A7 & A8 & A9 & A10)
         (B1 & B2 & B3 & B4 & B5 & B6 & B7 & B8 & B9 & B10).
  repeat split; congruence.
Qed.

(** What one turn of the reader leaves alone, and that it only ever removes
    slots. *)
Lemma readLoop_iter_effect d (w : World) :
  untouched_by_rpc w (fst (readLoop_iter d w))
  /\ conns (fst (readLoop_iter d w)) = conns w
  /\ requestID (hook (fst (readLoop_iter d w))) = requestID (hook w)
  /\ now (fst (readLoop_iter d w)) = now w
  /\ ctx (fst (readLoop_iter d w)) = ctx w
  /\ pending (hook (fst (readLoop_iter d w))) ⊆ pending (hook w).
Proof.
  unfold readLoop_iter, untouched_by_rpc.
  step_cases; simpl; split_and!; try reflexivity; try assumption;
    apply delete_subseteq.
Qed.

Lemma readLoop_effect ds (w : World) :
  untouched_by_rpc w (fst (readLoop ds w))
  /\ conns (fst (readLoop ds w)) = conns w
  /\ requestID (hook (fst (readLoop ds w))) = requestID (hook w)
  /\ now (fst (readLoop ds w)) = now w
  /\ ctx (fst (readLoop ds w)) = ctx w
  /\ pending (hook (fst (readLoop ds w))) ⊆ pending (hook w).
Proof.
  revert w. induction ds as [| d ds IH]; intros w; simpl.
  - split; [apply untouched_by_rpc_refl |]. split_and!; reflexivity.
  - pose proof (readLoop_iter_effect d w) as (U & C & R & N & X & P).
    destruct (readLoop_iter d w) as [w1 st]. simpl in *.
    destruct st; simpl; try (split_and!; assumption).
    destruct (IH w1) as (U' & C' & R' & N' & X' & P').
    split; [eapply untouched_by_rpc_trans; eassumption |].
    split_and!; try congruence. etrans; eassumption.
Qed.

Lemma while_waiting_effect (e : waiting) (w : World) :
  untouched_by_rpc w (while_waiting e w)
  /\ conns (while_waiting e w) = conns w
  /\ requestID (hook (while_waiting e w)) = requestID (hook w)
  /\ pending (hook (while_waiting e w)) ⊆ pending (hook w)
  /\ chans (while_waiting e w) = chans (fst (readLoop (arrivals e) w))
  /\ pending (hook (while_waiting e w)) = pending (hook (fst (readLoop (arrivals e) w))).
Proof.
  unfold while_waiting.
  destruct (readLoop_effect (arrivals e) w) as (U & C & R & N & X & P).
  destruct (ctx _), (cancelled e); simpl; split_and!; try assumption;
    try reflexivity; apply U.
Qed.

Lemma call_select_effect k id ch t0 (w w' : World) r :
  call_select k id ch t0 w = Some (w', r) ->
  untouched_by_rpc w w'
  /\ conns w' = conns w
  /\ requestID (hook w') = requestID (hook w)
  /\ pending (hook w') ⊆ pending (hook w)
  /\ r <> inr ErrEncode.
Proof.
  unfold untouched_by_rpc.
  destruct k; simpl; unfold try_recv; intros Hsel; step_cases; simpl;
    split_and!; try reflexivity; try discriminate; apply delete_subseteq.
Qed.

Lemma encode_effect (c : nat) (f : Frame) (ok : bool) (w : World) :
  encoder (hook w) = Some c ->
  snd (encode c f ok w) = write_succeeds ok w
  /\ conns (fst (encode c f ok w))
     = (if write_succeeds ok w then conns_after_write f w else conns w)
  /\ hook (fst (encode c f ok w)) = hook w
  /\ chans (fst (encode c f ok w)) = chans w
  /\ dials (fst (encode c f ok w)) = dials w
  /\ now (fst (encode c f ok w)) = now w
  /\ ctx (fst (encode c f ok w)) = ctx w
  /\ logged (fst (encode c f ok w)) = logged w.
Proof.
  intros Henc. unfold encode, write_succeeds, conns_after_write. rewrite Henc.
  destruct (conns w !! c) as [k |] eqn:Hk; [| repeat split].
  destruct (ok && negb (conn_closed k)) eqn:Hok; simpl; [| repeat split].
  repeat split.
  apply list_eq. intros i. destruct (decide (i = c)) as [-> | Hne].
  - rewrite list_lookup_insert_eq by (by eapply lookup_lt_Some).
    rewrite list_lookup_alter_eq, Hk. reflexivity.
  - rewrite list_lookup_insert_ne, list_lookup_alter_ne by done. reflexivity.
Qed.

(** The effect of one [call], in full. *)
Lemma call_frame (method : string) (params : Params) (s : schedule)
    (w w' : World) (r : Response + error) :
  call method params s w = Some (w', r) ->
  requestID (hook w') = wrap_int64 (requestID (hook w) + 1)
  /\ untouched_by_rpc w w'
  /\ (write_succeeds (io_ok s) w = false <-> r = inr ErrEncode)
  /\ conns w'
     = (if write_succeeds (io_ok s) w
        then conns_after_write
               (request_frame (wrap_int64 (requestID (hook w) + 1)) method params) w
        else conns w).
Proof.
  unfold call. simpl.
  set (id := wrap_int64 (requestID (hook w) + 1)).
  set (w1 := set_chans _ _).
  unfold call_send. simpl.
  destruct (encoder (hook w)) as [c |] eqn:Henc; [| discriminate].
  set (w1' := with_hook _ w1).
  assert (Henc' : encoder (hook w1') = Some c) by exact Henc.
  destruct (encode_effect c (FrameRequest "2.0" id method params) (io_ok s) w1' Henc')
    as (Hok & Hconns & Hhook & Hchans & Hdials & Hnow & Hctx & Hlog).
  assert (Hws : write_succeeds (io_ok s) w1' = write_succeeds (io_ok s) w).
  { unfold write_succeeds. simpl. reflexivity. }
  assert (Hcw : conns_after_write (FrameRequest "2.0" id method params) w1'
                = conns_after_write (request_frame id method params) w).
  { unfold conns_after_write. simpl. reflexivity. }
  rewrite Hws in Hok, Hconns. rewrite Hcw in Hconns.
  destruct (encode c _ (io_ok s) w1') as [w2 ok]. simpl in *. subst ok.
  assert (U2 : untouched_by_rpc w w2).
  { unfold untouched_by_rpc. rewrite Hhook, Hdials. simpl. repeat split. }
  assert (R2 : requestID (hook w2) = id) by (rewrite Hhook; reflexivity).
  destruct (write_succeeds (io_ok s) w) eqn:Hw.
  - intros Hsel.
    destruct (while_waiting_effect (env s) w2) as (U3 & C3 & R3 & _).
    destruct (call_select_effect _ _ _ _ _ _ _ Hsel) as (U4 & C4 & R4 & _ & Hne).
    split; [congruence |].
    split; [eapply untouched_by_rpc_trans; [exact U2 |];
            eapply untouched_by_rpc_trans; eassumption |].
    split; [split; [discriminate | intros ->; contradiction] |].
    congruence.
  - intros [= <- <-]. simpl.
    split; [exact R2 |].
    split; [| split; [split; reflexivity | exact Hconns]].
    unfold untouched_by_rpc in *. simpl. exact U2.
Qed.

(** X1: whatever its outcome, a [call] that returns has consumed exactly
    one request id, the next one; it has written its request on the
    encoder's connection when the write went through and nothing otherwise;
    it fails with the write error exactly when the write did not go
    through; and it leaves alone everything else in the hook: configuration,
    agent id, phase, connected flag, connection, feedback channel. *)
Theorem call_effect (method : string) (params : Params) (s : schedule)
    (w w' : World) (r : Response + error) :
  call method params s w = Some (w', r) ->
  requestID (hook w') = wrap_int64 (requestID (hook w) + 1)
  /\ untouched_by_rpc w w'
  /\ (write_succeeds (io_ok s) w = false <-> r = inr ErrEncode)
  /\ conns w'
     = (if write_succeeds (io_ok s) w
        then conns_after_write
               (request_frame (wrap_int64 (requestID (hook w) + 1)) method params) w
        else conns w).
Proof.
  intros Hcall.
  exact (call_frame _ _ _ _ _ _ Hcall).
Qed.

Lemma call_effect_witness :
  requestID (hook world_after_tool_error) = 3
  /\ agentID (hook world_after_tool_error) = agentID (hook world_connected).
Proof.
  assert (Hcall : call "tools/call" (callTool_params "report_status" status_args)
                       tool_error_schedule world_connected
                  = Some (world_after_tool_error,
                          inl (response_for 3 "{content:[{type:text,text:nope}],isError:true}")))
    by (vm_compute; reflexivity).
  destruct (call_effect _ _ _ _ _ _ Hcall) as (Hid & Hsame & _).
  split; [exact Hid | apply Hsame].
Defined.

(** ** Slots ready for delivery *)

Lemma slots_ok_delete (p : gmap Z nat) (cs : gmap nat (chan Response)) (id : Z) :
  slots_ok p cs -> slots_ok (delete id p) cs.
Proof.
  intros Hok k ch Hk. apply lookup_delete_Some in Hk as [Hne Hk].
  destruct (Hok k ch Hk) as [Hc Hinj]. split; [exact Hc |].
  intros k' Hk'. apply lookup_delete_Some in Hk' as [_ Hk']. auto.
Qed.

Lemma slots_ok_subseteq (p p' : gmap Z nat) (cs : gmap nat (chan Response)) :
  p' ⊆ p -> slots_ok p cs -> slots_ok p' cs.
Proof.
  intros Hsub Hok k ch Hk.
  destruct (Hok k ch (lookup_weaken _ _ _ _ Hk Hsub)) as [Hc Hinj].
  split; [exact Hc |]. intros k' Hk'. apply Hinj. by eapply lookup_weaken.
Qed.

(** A channel no slot refers to can change freely. *)
Lemma slots_ok_other_chan (p : gmap Z nat) (cs : gmap nat (chan Response))
    (ch : nat) (c : chan Response) :
  (forall id, p !! id <> Some ch) -> slots_ok p cs -> slots_ok p (<[ch := c]> cs).
Proof.
  intros Hfree Hok k ch' Hk. destruct (Hok k ch' Hk) as [Hc Hinj].
  split; [| exact Hinj].
  rewrite lookup_insert_ne; [exact Hc |]. intros ->. by eapply Hfree.
Qed.

(** Installing a slot on a channel just made keeps every slot ready. *)
Lemma slots_ok_install (p : gmap Z nat) (cs : gmap nat (chan Response)) (id : Z) :
  slots_ok p cs ->
  slots_ok (<[id := fresh (dom cs)]> p) (<[fresh (dom cs) := make_chan 1]> cs).
Proof.
  intros Hok.
  assert (Hfresh : forall k, p !! k <> Some (fresh (dom cs))).
  { intros k Hk. destruct (Hok k _ Hk) as [(c & Hc & _) _].
    apply (is_fresh (dom cs)). apply elem_of_dom. eauto. }
  intros k ch Hk. destruct (decide (k = id)) as [-> | Hne].
  - rewrite lookup_insert_eq in Hk. injection Hk as <-. split.
    + exists (make_chan 1). rewrite lookup_insert_eq. simpl. split_and!; [done | done | lia].
    + intros k' Hk'. destruct (decide (k' = id)) as [-> | Hne']; [done |].
      rewrite lookup_insert_ne in Hk' by done. by apply Hfresh in Hk'.
  - rewrite lookup_insert_ne in Hk by done.
    destruct (Hok k ch Hk) as [Hc Hinj]. split.
    + rewrite lookup_insert_ne; [exact Hc |]. intros <-. by eapply Hfresh.
    + intros k' Hk'. destruct (decide (k' = id)) as [-> | Hne'].
      * rewrite lookup_insert_eq in Hk'. injection Hk' as <-. by apply Hfresh in Hk.
      * rewrite lookup_insert_ne in Hk' by done. auto.
Qed.

(** Ready slots stay ready under the reader, and its send goes through. *)
Lemma readLoop_keeps_slots_ready (ds : list (decode_error + Response)) (w : World) :
  slots_ready w ->
  snd (readLoop ds w) <> Blocked /\ slots_ready (fst (readLoop ds w)).
Proof.
  revert w. induction ds as [| d ds IH]; intros w Hok; simpl; [by split |].
  assert (Hiter : snd (readLoop_iter d w) <> Blocked
                  /\ slots_ready (fst (readLoop_iter d w))).
  { unfold readLoop_iter. destruct (ctx w); [by split |].
    destruct d as [e | resp]; [destruct e; by split |].
    destruct (resp_ID resp) as [| | | f | | | |]; simpl; try by split.
    destruct (pending (hook w) !! int64_of_float64 f) as [ch |] eqn:Hslot; [| by split].
    destruct (Hok _ _ Hslot) as [(c & Hc & Hbuf & Hcap) Hinj].
    rewrite Hc. unfold chan_full. rewrite Hbuf. simpl.
    destruct (Nat.leb_spec (chan_cap c) 0) as [Hle | _]; [lia |].
    simpl. split; [discriminate |].
    unfold slots_ready. simpl.
    apply slots_ok_other_chan; [| by apply slots_ok_delete].
    intros k Hk. apply lookup_delete_Some in Hk as [Hne Hk]. apply Hinj in Hk. congruence. }
  destruct (readLoop_iter d w) as [w1 st]. simpl in Hiter. destruct Hiter as [Hst Hok1].
  destruct st; simpl; try by split. by apply IH.
Qed.

(** X2: as long as every slot is ready, the reader's send, made with the
    mutex held, never blocks, and every slot is still ready after the turn:
    the one delivered to is removed in the same turn. *)
Theorem readLoop_never_blocks (ds : list (decode_error + Response)) (w : World) :
  slots_ready w ->
  snd (readLoop ds w) <> Blocked /\ slots_ready (fst (readLoop ds w)).
Proof.
  intros Hok.
  exact (readLoop_keeps_slots_ready ds w Hok).
Qed.

Lemma readLoop_never_blocks_witness :
  snd (readLoop [reply 1 "{protocolVersion:2024-11-05}"; inr string_id_response]
         world_one_pending) <> Blocked.
Proof.
  refine (proj1 (readLoop_never_blocks _ world_one_pending _)).
  intros id ch Hslot.
  assert (Hp : pending (hook world_one_pending) = {[ 1 := 0%nat ]})
    by (vm_compute; reflexivity).
  rewrite Hp in Hslot |- *.
  apply lookup_singleton_Some in Hslot as [<- <-].
  split.
  - exists (make_chan 1). split_and!; [vm_compute; reflexivity | reflexivity | simpl; lia].
  - intros id' Hid'. by apply lookup_singleton_Some in Hid' as [<- _].
Defined.

(** A returned [call] has put the pending map back. *)
Lemma call_slot_balance (method : string) (params : Params) (s : schedule)
    (w w' : World) (r : Response + error) :
  slots_ready w ->
  call method params s w = Some (w', r) ->
  pending (hook w') !! wrap_int64 (requestID (hook w) + 1) = None
  /\ pending (hook w') ⊆ pending (hook w)
  /\ slots_ready w'.
Proof.
  intros Hok. unfold call. simpl.
  set (id := wrap_int64 (requestID (hook w) + 1)).
  set (ch := fresh (dom (chans w))).
  set (w1 := set_chans _ _).
  unfold call_send. simpl.
  destruct (encoder (hook w)) as [c |] eqn:Henc; [| discriminate].
  set (w1' := with_hook _ w1).
  assert (Hok1 : slots_ready w1') by (apply slots_ok_install; exact Hok).
  assert (Hp1 : pending (hook w1') = <[id := ch]> (pending (hook w))) by reflexivity.
  assert (Hfree : forall k, pending (hook w) !! k <> Some ch).
  { intros k Hk. destruct (Hok k _ Hk) as [(c0 & Hc0 & _) _].
    apply (is_fresh (dom (chans w))). apply elem_of_dom. eauto. }
  assert (Hback : forall p : gmap Z nat,
             p ⊆ <[id := ch]> (pending (hook w)) -> p !! id = None ->
             p ⊆ pending (hook w)).
  { intros p Hsub Hnone. apply map_subseteq_spec. intros k v Hk.
    pose proof (lookup_weaken _ _ _ _ Hk Hsub) as Hk'.
    destruct (decide (k = id)) as [-> | Hne]; [congruence |].
    by rewrite lookup_insert_ne in Hk' by done. }
  destruct (encode_effect c (FrameRequest "2.0" id method params) (io_ok s) w1' Henc)
    as (_ & _ & Hhook & Hchans & _).
  destruct (encode c _ (io_ok s) w1') as [w2 ok]. simpl in Hhook, Hchans.
  assert (Hok2 : slots_ready w2) by (unfold slots_ready; rewrite Hhook, Hchans; exact Hok1).
  assert (Hp2 : pending (hook w2) = <[id := ch]> (pending (hook w))) by (by rewrite Hhook).
  destruct ok.
  - set (w3 := while_waiting (env s) w2).
    destruct (while_waiting_effect (env s) w2) as (_ & _ & _ & Hsub3 & Hch3 & Hpe3).
    destruct (readLoop_keeps_slots_ready (arrivals (env s)) w2 Hok2) as [_ Hok3].
    assert (Hok3' : slots_ready w3).
    { unfold slots_ready. fold w3 in Hch3, Hpe3. rewrite Hch3, Hpe3. exact Hok3. }
    fold w3 in Hsub3. rewrite Hp2 in Hsub3.
    destruct (fires s); simpl.
    + destruct (ctx w3); intros [= <- <-]. simpl.
      split; [apply lookup_delete_eq |].
      split; [apply Hback; [etrans; [apply delete_subseteq | exact Hsub3]
                           | apply lookup_delete_eq] |].
      by apply slots_ok_delete.
    + destruct (chans w3 !! ch) as [c3 |] eqn:Hc3; [| discriminate].
      unfold try_recv. destruct (chan_buf c3) as [| resp rest] eqn:Hbuf; [discriminate |].
      assert (Hnokey : forall k, pending (hook w3) !! k <> Some ch).
      { intros k Hk. destruct (Hok3' k _ Hk) as [(c4 & Hc4 & Hb4 & _) _]. congruence. }
      assert (Hnone : pending (hook w3) !! id = None).
      { destruct (pending (hook w3) !! id) as [ch' |] eqn:Hid; [| reflexivity].
        pose proof (lookup_weaken _ _ _ _ Hid Hsub3) as Hid'.
        rewrite lookup_insert_eq in Hid'. injection Hid' as <-. by apply Hnokey in Hid. }
      intros Hsel.
      assert (Hw' : pending (hook w') = pending (hook w3)
                    /\ chans w' = <[ch := mkChan rest (chan_cap c3) (chan_closed c3)]> (chans w3)).
      { destruct (resp_Error resp); injection Hsel as <- _; by split. }
      destruct Hw' as [Hpw Hcw]. rewrite Hpw.
      split; [exact Hnone |]. split; [by apply Hback |].
      unfold slots_ready. rewrite Hpw, Hcw. by apply slots_ok_other_chan.
    + destruct (now w2 + CallTimeout <=? now w3); intros [= <- <-]. simpl.
      split; [apply lookup_delete_eq |].
      split; [apply Hback; [etrans; [apply delete_subseteq | exact Hsub3]
                           | apply lookup_delete_eq] |].
      by apply slots_ok_delete.
  - intros [= <- <-]. split_and!.
    + simpl. apply lookup_delete_eq.
    + simpl. rewrite Hp2.
      apply Hback; [apply delete_subseteq | apply lookup_delete_eq].
    + unfold slots_ready. simpl. apply slots_ok_delete. exact Hok2.
Qed.

(** X3: pending-map balance.  When every slot is ready, a [call] that
    returns, with a response or with any error, has removed its own slot,
    has added no other, and leaves every remaining slot ready. *)
Theorem call_removes_its_slot (method : string) (params : Params) (s : schedule)
    (w w' : World) (r : Response + error) :
  slots_ready w ->
  call method params s w = Some (w', r) ->
  pending (hook w') !! wrap_int64 (requestID (hook w) + 1) = None
  /\ pending (hook w') ⊆ pending (hook w)
  /\ slots_ready w'.
Proof.
  intros Hok Hcall.
  exact (call_slot_balance _ _ _ _ _ _ Hok Hcall).
Qed.

Lemma slots_ok_empty (cs : gmap nat (chan Response)) : slots_ok ∅ cs.
Proof. intros id ch Hid. by rewrite lookup_empty in Hid. Qed.

Lemma slots_ready_world_connected : slots_ready world_connected.
Proof.
  unfold slots_ready.
  replace (pending (hook world_connected)) with (∅ : gmap Z nat)
    by (vm_compute; reflexivity).
  apply slots_ok_empty.
Qed.

Lemma call_removes_its_slot_witness :
  pending (hook world_after_tool_error) !! 3 = None
  /\ pending (hook world_after_tool_error) ⊆ pending (hook world_connected).
Proof.
  assert (Hcall : call "tools/call" (callTool_params "report_status" status_args)
                       tool_error_schedule world_connected
                  = Some (world_after_tool_error,
                          inl (response_for 3 "{content:[{type:text,text:nope}],isError:true}")))
    by (vm_compute; reflexivity).
  destruct (call_removes_its_slot _ _ _ _ _ _ slots_ready_world_connected Hcall)
    as (Hgone & Hsub & _).
  split; [exact Hgone | exact Hsub].
Defined.

(** ** Correlation of responses *)

(** X4: request and response correlate by id.  On a hook whose slots are
    ready and whose write goes through, if the reader decodes a frame whose
    numeric id converts to the id this [call] took, the call returns that
    very response, or the RPC error with the code and message the frame
    carries; its slot is gone and no other slot was touched. *)
Theorem call_returns_matching_response (method : string) (params : Params)
    (resp : Response) (f : spec_float) (w : World) :
  slots_ready w ->
  ctx w = None ->
  write_succeeds true w = true ->
  resp_ID resp = AnyFloat64 f ->
  int64_of_float64 f = wrap_int64 (requestID (hook w) + 1) ->
  exists w',
    call method params (answered_with resp) w
    = Some (w', match resp_Error resp with
                | Some e => inr (ErrRPC (err_Code e) (err_Message e))
                | None => inl resp
                end)
    /\ pending (hook w') = delete (wrap_int64 (requestID (hook w) + 1)) (pending (hook w)).
Proof.
  intros Hok Hctx Hwrite Hid Hconv.
  unfold write_succeeds in Hwrite.
  destruct (encoder (hook w)) as [c |] eqn:Henc; [| discriminate].
  destruct (conns w !! c) as [k |] eqn:Hk; [| discriminate].
  simpl in Hwrite.
  unfold call, call_send, encode. simpl. rewrite Henc, Hk. simpl. rewrite Hwrite. simpl.
  unfold while_waiting. simpl. unfold readLoop_iter. simpl.
  rewrite Hctx, Hid. simpl. rewrite Hconv, lookup_insert_eq. simpl.
  rewrite lookup_insert_eq. simpl. rewrite Hctx. simpl.
  rewrite lookup_insert_eq. simpl.
  destruct (resp_Error resp) as [e |]; eexists; (split; [reflexivity |]); simpl;
    by rewrite delete_insert_eq.
Qed.

Lemma call_returns_matching_response_witness :
  exists w',
    call "tools/call" (callTool_params "report_status" status_args)
         (answered_with (response_for 3 "{content:[{type:text,text:nope}],isError:true}"))
         world_connected
    = Some (w', inl (response_for 3 "{content:[{type:text,text:nope}],isError:true}"))
    /\ pending (hook w') = delete 3 (pending (hook world_connected)).
Proof.
  apply (call_returns_matching_response "tools/call"
           (callTool_params "report_status" status_args)
           (response_for 3 "{content:[{type:text,text:nope}],isError:true}")
           (float64_of_Z 3) world_connected).
  - exact slots_ready_world_connected.
  - vm_compute. reflexivity.
  - vm_compute. reflexivity.
  - reflexivity.
  - vm_compute. reflexivity.
Defined.

(** X5: of two frames that convert to the same pending id the reader
    delivers the first and drops the second: after the first the slot is
    gone, so the second changes nothing and the channel holds the first
    alone. *)
Theorem readLoop_drops_duplicate (r1 r2 : Response) (f1 f2 : spec_float)
    (ch : nat) (w : World) :
  slots_ready w ->
  ctx w = None ->
  resp_ID r1 = AnyFloat64 f1 ->
  resp_ID r2 = AnyFloat64 f2 ->
  int64_of_float64 f2 = int64_of_float64 f1 ->
  pending (hook w) !! int64_of_float64 f1 = Some ch ->
  readLoop [inr r1; inr r2] w = readLoop [inr r1] w
  /\ snd (readLoop [inr r1; inr r2] w) = Continue
  /\ (chan_buf <$> chans (fst (readLoop [inr r1; inr r2] w)) !! ch) = Some [r1]
  /\ pending (hook (fst (readLoop [inr r1; inr r2] w)))
     = delete (int64_of_float64 f1) (pending (hook w)).
Proof.
  intros Hok Hctx Hid1 Hid2 Hsame Hslot.
  destruct (Hok _ _ Hslot) as [(c & Hc & Hbuf & Hcap) _].
  assert (Hfirst : readLoop_iter (inr r1) w
                   = (delete_pending (int64_of_float64 f1)
                        (set_chans (<[ch := mkChan [r1] (chan_cap c) (chan_closed c)]> (chans w)) w),
                      Continue)).
  { unfold readLoop_iter. rewrite Hctx, Hid1. simpl. rewrite Hslot, Hc.
    unfold chan_full. rewrite Hbuf. simpl.
    destruct (Nat.leb_spec (chan_cap c) 0) as [Hle | _]; [lia | reflexivity]. }
  simpl. rewrite Hfirst.
  rewrite (readLoop_iter_unrouted r2).
  - simpl. rewrite Hctx. split_and!; try reflexivity.
    simpl. by rewrite lookup_insert_eq.
  - right. exists f2. split; [exact Hid2 |]. simpl. rewrite Hsame. apply lookup_delete_eq.
Qed.

Lemma readLoop_drops_duplicate_witness :
  (chan_buf <$> chans (fst (readLoop [reply 1 "{protocolVersion:2024-11-05}";
                                     reply 1 "{content:[],isError:true}"]
                              world_one_pending)) !! 0%nat)
  = Some [response_for 1 "{protocolVersion:2024-11-05}"].
Proof.
  refine (proj1 (proj2 (proj2
    (readLoop_drops_duplicate (response_for 1 "{protocolVersion:2024-11-05}")
       (response_for 1 "{content:[],isError:true}")
       (float64_of_Z 1) (float64_of_Z 1) 0%nat world_one_pending
       _ eq_refl eq_refl eq_refl eq_refl _)))).
  - intros id ch Hslot.
    assert (Hp : pending (hook world_one_pending) = {[ 1 := 0%nat ]})
      by (vm_compute; reflexivity).
    rewrite Hp in Hslot |- *.
    apply lookup_singleton_Some in Hslot as [<- <-].
    split.
    + exists (make_chan 1). split_and!; [vm_compute; reflexivity | reflexivity | simpl; lia].
    + intros id' Hid'. by apply lookup_singleton_Some in Hid' as [<- _].
  - vm_compute. reflexivity.
Defined.



(** ** What goes on the wire *)

Lemma appended_nil (c : nat) (w w' : World) :
  conns w' = conns w -> appended c [] w w'.
Proof.
  intros Heq. unfold appended. rewrite Heq. split_and!; try done.
  intros k Hk. rewrite Hk, app_nil_r. by destruct k.
Qed.

Lemma appended_trans (c : nat) (fs1 fs2 : list Frame) (w1 w2 w3 : World) :
  appended c fs1 w1 w2 -> appended c fs2 w2 w3 -> appended c (fs1 ++ fs2) w1 w3.
Proof.
  intros (L1 & O1 & A1) (L2 & O2 & A2). split_and!.
  - congruence.
  - intros c' Hne. rewrite O2, O1 by done. reflexivity.
  - intros k Hk. rewrite (A2 _ (A1 _ Hk)). simpl. by rewrite app_assoc.
Qed.

Lemma appended_write_succeeds (c : nat) (fs : list Frame) (ok : bool) (w w' : World) :
  appended c fs w w' -> encoder (hook w) = Some c -> encoder (hook w') = Some c ->
  write_succeeds ok w' = write_succeeds ok w.
Proof.
  intros (L & O & A) He He'. unfold write_succeeds. rewrite He, He'.
  destruct (conns w !! c) as [k |] eqn:Hk.
  - by rewrite (A _ eq_refl).
  - apply lookup_ge_None in Hk. rewrite <- L in Hk. apply lookup_ge_None in Hk.
    by rewrite Hk.
Qed.

(** A write on the encoder's connection, in terms of the frames appended. *)
Lemma write_appended (c : nat) (f : Frame) (ok : bool) (w w' : World) :
  encoder (hook w) = Some c ->
  conns w' = (if write_succeeds ok w then conns_after_write f w else conns w) ->
  appended c (if write_succeeds ok w then [f] else []) w w'.
Proof.
  intros He Hconns.
  destruct (write_succeeds ok w) eqn:Hws; [| by apply appended_nil].
  unfold write_succeeds in Hws. unfold conns_after_write in Hconns.
  rewrite He in Hws, Hconns.
  destruct (conns w !! c) as [k |] eqn:Hk; [| discriminate].
  apply andb_prop in Hws as [_ Hopen]. apply negb_true_iff in Hopen.
  unfold appended. rewrite Hconns. split_and!.
  - apply length_alter.
  - intros c' Hne. by apply list_lookup_alter_ne.
  - intros k' Hk'. rewrite list_lookup_alter_eq, Hk'. simpl.
    assert (k' = k) by congruence. subst. by rewrite Hopen.
Qed.

Lemma sendNotification_effect (method : string) (params : Params) (ok : bool)
    (w : World) :
  hook (sendNotification method params ok w) = hook w
  /\ chans (sendNotification method params ok w) = chans w
  /\ dials (sendNotification method params ok w) = dials w
  /\ conns (sendNotification method params ok w)
     = (if write_succeeds ok w
        then conns_after_write (FrameNotification "2.0" method params) w
        else conns w).
Proof.
  unfold sendNotification.
  destruct (encoder (hook w)) as [c |] eqn:He.
  - destruct (encode_effect c (FrameNotification "2.0" method params) ok w He)
      as (_ & Hc & Hh & Hch & Hd & _). by split_and!.
  - unfold write_succeeds. rewrite He. by split_and!.
Qed.

Section Handshake.
Context `{EncodingJSON}.

(** The effect of [initialize] on the hook and on the wire. *)
Lemma initialize_effect (s : schedule) (notify_ok : bool)
    (c : nat) (w w' : World) (e : option error) :
  encoder (hook w) = Some c ->
  initialize s notify_ok w = Some (w', e) ->
  requestID (hook w') = wrap_int64 (requestID (hook w) + 1)
  /\ untouched_by_rpc w w'
  /\ appended c
       ((if write_succeeds (io_ok s) w
         then [request_frame (wrap_int64 (requestID (hook w) + 1))
                             "initialize" initialize_params]
         else [])
        ++ match e with
           | Some _ => []
           | None => if write_succeeds notify_ok w then [initialized_frame] else []
           end)
       w w'
  /\ (e = None -> write_succeeds (io_ok s) w = true).
Proof.
  intros He. unfold initialize.
  destruct (call "initialize" initialize_params s w) as [[wa r] |] eqn:Hcall;
    [| discriminate].
  destruct (call_frame _ _ _ _ _ _ Hcall) as (Hid & U & Hw & Hc).
  assert (Hea : encoder (hook wa) = Some c) by (destruct U as (_ & _ & -> & _); exact He).
  pose proof (write_appended c _ _ w wa He Hc) as A1.
  destruct r as [resp | err]; simpl; intros [= <- <-].
  - destruct (sendNotification_effect "initialized" ParamsNil notify_ok wa)
      as (Hh & Hch & Hd & Hcn).
    assert (Hws : write_succeeds notify_ok wa = write_succeeds notify_ok w)
      by (eapply appended_write_succeeds; eassumption).
    rewrite Hh. split; [exact Hid |].
    split.
    { unfold untouched_by_rpc in *. rewrite Hh, Hd. exact U. }
    split.
    { eapply appended_trans; [exact A1 |]. rewrite <- Hws.
      apply (write_appended c); [exact Hea | exact Hcn]. }
    intros _. destruct (write_succeeds (io_ok s) w); [reflexivity |].
    destruct Hw as [Hw _]. discriminate (Hw eq_refl).
  - split; [exact Hid |]. split; [exact U |].
    split; [by rewrite app_nil_r | discriminate].
Qed.


(** What [registerAgent] does to the wire and to the hook besides the agent
    id and the phase. *)
Lemma registerAgent_effect (s : schedule) (c : nat) (w w' : World) (e : option error) :
  encoder (hook w) = Some c ->
  registerAgent s w = Some (w', e) ->
  requestID (hook w') = wrap_int64 (requestID (hook w) + 1)
  /\ cfg (hook w') = cfg (hook w)
  /\ conn (hook w') = conn (hook w)
  /\ encoder (hook w') = encoder (hook w)
  /\ decoder (hook w') = decoder (hook w)
  /\ connected (hook w') = connected (hook w)
  /\ dials w' = dials w
  /\ appended c
       (if write_succeeds (io_ok s) w
        then [request_frame (wrap_int64 (requestID (hook w) + 1)) "tools/call"
                (callTool_params "register_agent" (registerAgent_args (hook w)))]
        else [])
       w w'
  /\ (e = None -> write_succeeds (io_ok s) w = true /\ phase (hook w') = "idle").
Proof.
  intros He. unfold registerAgent, callTool.
  destruct (call "tools/call" _ s w) as [[wa r] |] eqn:Hcall; [| discriminate].
  destruct (call_frame _ _ _ _ _ _ Hcall) as (Hid & U & Hw & Hc).
  pose proof (write_appended c _ _ w wa He Hc) as A1.
  destruct U as (U1 & U2 & U3 & U4 & U5 & U6 & U7 & U8 & U9 & U10).
  intros [= Hfin].
  assert (Hw' : w' = fst (registerAgent_finish (callTool_finish r) wa))
    by (by rewrite Hfin).
  assert (He' : e = snd (registerAgent_finish (callTool_finish r) wa))
    by (by rewrite Hfin).
  subst w' e. clear Hfin.
  assert (Hshape : forall x, hook (fst (registerAgent_finish x wa)) = hook wa
                   \/ (exists a, hook (fst (registerAgent_finish x wa))
                                 = set_phase "idle" (set_agentID a (hook wa)))
                   \/ hook (fst (registerAgent_finish x wa)) = set_phase "idle" (hook wa)).
  { intros x. unfold registerAgent_finish. destruct x as [text | err]; [| by left].
    destruct (unmarshal_AgentID text) as [a |]; [| by right; right].
    destruct (decide (a = EmptyString)); [by right; right | right; left; by exists a]. }
  assert (Hrest : conns (fst (registerAgent_finish (callTool_finish r) wa)) = conns wa
                  /\ dials (fst (registerAgent_finish (callTool_finish r) wa)) = dials wa).
  { unfold registerAgent_finish. destruct (callTool_finish r) as [text | err]; [| by split].
    destruct (unmarshal_AgentID text) as [a |]; [destruct (decide (a = EmptyString)) |];
      by split. }
  destruct Hrest as [Hcn Hdl].
  assert (A2 : appended c [] wa (fst (registerAgent_finish (callTool_finish r) wa)))
    by (by apply appended_nil).
  pose proof (appended_trans _ _ _ _ _ _ A1 A2) as A. rewrite app_nil_r in A.
  assert (Hfields : forall h, h = hook wa
                    \/ (exists a, h = set_phase "idle" (set_agentID a (hook wa)))
                    \/ h = set_phase "idle" (hook wa) ->
                    requestID h = requestID (hook wa) /\ cfg h = cfg (hook wa)
                    /\ conn h = conn (hook wa) /\ encoder h = encoder (hook wa)
                    /\ decoder h = decoder (hook wa) /\ connected h = connected (hook wa)).
  { intros h [-> | [[a ->] | ->]]; by split_and!. }
  destruct (Hfields _ (Hshape (callTool_finish r))) as (F1 & F2 & F3 & F4 & F5 & F6).
  split_and!; try congruence; try exact A.
  intros He0.
  assert (Hok : exists text, callTool_finish r = inl text).
  { destruct (callTool_finish r) as [text | err]; [by exists text |].
    simpl in He0. discriminate. }
  destruct Hok as [text Htext]. split.
  - destruct (write_succeeds (io_ok s) w); [reflexivity |].
    destruct Hw as [Hw _]. rewrite (Hw eq_refl) in Htext. discriminate.
  - rewrite Htext. unfold registerAgent_finish.
    destruct (unmarshal_AgentID text) as [a |]; [destruct (decide (a = EmptyString)) |];
      reflexivity.
Qed.

Lemma connect_dial_ok (w : World) :
  let w1 := fst (connect_dial true w) in
  connect_dial true w = (w1, None)
  /\ conns w1 = (conns w ++ [mkConn (Endpoint (cfg (hook w))) false []])%list
  /\ dials w1 = (dials w ++ [Endpoint (cfg (hook w))])%list
  /\ conn (hook w1) = Some (length (conns w))
  /\ encoder (hook w1) = Some (length (conns w))
  /\ decoder (hook w1) = Some (length (conns w))
  /\ requestID (hook w1) = requestID (hook w)
  /\ cfg (hook w1) = cfg (hook w)
  /\ connected (hook w1) = connected (hook w)
  /\ pending (hook w1) = pending (hook w)
  /\ chans w1 = chans w.
Proof. unfold connect_dial. simpl. by split_and!. Qed.

(** X8: a [connect] that returns nil has dialled the configured endpoint
    once and opened one new connection, on which exactly the handshake went
    out in order: the [initialize] request, the [initialized] notification
    (unless its write failed), the [register_agent] call carrying the
    configured role and capabilities.  It used the next two ids, left the
    hook connected with phase [idle], and the connection open. *)
Theorem connect_success (dial_ok : bool) (s_init : schedule) (notify_ok : bool)
    (s_reg : schedule) (w w' : World) :
  connect dial_ok s_init notify_ok s_reg w = Some (w', None) ->
  dial_ok = true
  /\ connected (hook w') = true
  /\ phase (hook w') = "idle"
  /\ conn (hook w') = Some (length (conns w))
  /\ encoder (hook w') = Some (length (conns w))
  /\ requestID (hook w') = wrap_int64 (wrap_int64 (requestID (hook w) + 1) + 1)
  /\ dials w' = (dials w ++ [Endpoint (cfg (hook w))])%list
  /\ length (conns w') = S (length (conns w))
  /\ (forall c, (c < length (conns w))%nat -> conns w' !! c = conns w !! c)
  /\ conns w' !! length (conns w)
     = Some (mkConn (Endpoint (cfg (hook w))) false
               (handshake_frames (wrap_int64 (requestID (hook w) + 1))
                  (wrap_int64 (wrap_int64 (requestID (hook w) + 1) + 1))
                  notify_ok (hook w))).
Proof.
  unfold connect. destruct dial_ok; [| discriminate].
  destruct (connect_dial_ok w)
    as (Hd & D1 & D2 & D3 & D4 & D5 & D6 & D7 & D8 & D9 & D10).
  rewrite Hd. set (w1 := fst (connect_dial true w)) in *.
  set (c := length (conns w)) in *. rewrite D3.
  destruct (initialize s_init notify_ok w1) as [[w2 e2] |] eqn:Hinit; [| discriminate].
  destruct (initialize_effect _ _ c _ _ _ D4 Hinit) as (I1 & U & A1 & I2).
  destruct e2 as [err |]; simpl; [discriminate |].
  specialize (I2 eq_refl).
  destruct U as (U1 & U2 & U3 & U4 & U5 & U6 & U7 & U8 & U9 & U10).
  assert (He2 : encoder (hook w2) = Some c) by congruence.
  destruct (registerAgent s_reg w2) as [[w4 e4] |] eqn:Hreg; [| discriminate].
  destruct (registerAgent_effect _ c _ _ _ He2 Hreg)
    as (R1 & R2 & R3 & R4 & R5 & R6 & R7 & A2 & R8).
  destruct e4 as [err |]; simpl; [discriminate |].
  destruct (R8 eq_refl) as [Hw2 Hphase].
  intros [= <-]. simpl.
  assert (Hk1 : conns w1 !! c = Some (mkConn (Endpoint (cfg (hook w))) false [])).
  { rewrite D1. by rewrite lookup_app_r, Nat.sub_diag. }
  assert (Hn1 : write_succeeds notify_ok w1 = notify_ok).
  { unfold write_succeeds. rewrite D4, Hk1. simpl. apply andb_true_r. }
  rewrite I2, Hn1 in A1. rewrite Hw2 in A2.
  pose proof (appended_trans _ _ _ _ _ _ A1 A2) as (L & O & A).
  split_and!; try congruence.
  - rewrite L, D1, length_app. simpl. lia.
  - intros c' Hlt. rewrite O by lia. rewrite D1. by apply lookup_app_l.
  - rewrite (A _ Hk1). simpl. unfold handshake_frames.
    assert (Hargs : registerAgent_args (hook w2) = registerAgent_args (hook w))
      by (unfold registerAgent_args; congruence).
    assert (Hreq : requestID (hook w2) = wrap_int64 (requestID (hook w) + 1))
      by congruence.
    rewrite Hargs, Hreq. reflexivity.
Qed.

(** X9: a [connect] that returns an error never raises the connected flag
    and always returns a wrapped error.  When the dial failed nothing was
    opened and the hook is as before.  Otherwise the failure came from the
    handshake or the registration, the connection it had just opened is
    closed (while the hook still refers to it), and if it was the handshake
    that failed the [register_agent] call was never written.  No connection
    opened earlier is closed or written to. *)
Theorem connect_failure (dial_ok : bool) (s_init : schedule) (notify_ok : bool)
    (s_reg : schedule) (w w' : World) (e : error) :
  connect dial_ok s_init notify_ok s_reg w = Some (w', Some e) ->
  connected (hook w') = connected (hook w)
  /\ dials w' = (dials w ++ [Endpoint (cfg (hook w))])%list
  /\ (forall c, (c < length (conns w))%nat -> conns w' !! c = conns w !! c)
  /\ (dial_ok = false -> e = ErrDial /\ hook w' = hook w /\ conns w' = conns w)
  /\ (dial_ok = true ->
      conn (hook w') = Some (length (conns w))
      /\ (exists sent, conns w' !! length (conns w)
                       = Some (mkConn (Endpoint (cfg (hook w))) true sent)
          /\ ((exists e0, e = ErrInitialize e0
                /\ sent = if io_ok s_init
                          then [request_frame (wrap_int64 (requestID (hook w) + 1))
                                  "initialize" initialize_params]
                          else [])
              \/ (exists e0, e = ErrRegister e0)))
      /\ write_succeeds true w' = false).
Proof.
  unfold connect. destruct dial_ok.
  2:{ simpl. intros [= <- <-]. simpl. split_and!; try done. }
  destruct (connect_dial_ok w)
    as (Hd & D1 & D2 & D3 & D4 & D5 & D6 & D7 & D8 & D9 & D10).
  rewrite Hd. set (w1 := fst (connect_dial true w)) in *.
  set (c := length (conns w)) in *. rewrite D3.
  assert (Hk1 : conns w1 !! c = Some (mkConn (Endpoint (cfg (hook w))) false [])).
  { rewrite D1. by rewrite lookup_app_r, Nat.sub_diag. }
  assert (Hopen1 : forall ok, write_succeeds ok w1 = ok).
  { intros ok. unfold write_succeeds. rewrite D4, Hk1. simpl. apply andb_true_r. }
  destruct (initialize s_init notify_ok w1) as [[w2 e2] |] eqn:Hinit; [| discriminate].
  destruct (initialize_effect _ _ c _ _ _ D4 Hinit) as (I1 & U & A1 & I2).
  destruct U as (U1 & U2 & U3 & U4 & U5 & U6 & U7 & U8 & U9 & U10).
  rewrite !Hopen1 in A1.
  assert (Hclosed : forall fs wx, appended c fs w1 wx -> encoder (hook wx) = Some c ->
            conn (hook wx) = Some c -> connected (hook wx) = connected (hook w) ->
            dials wx = dials w1 ->
            connected (hook (close_conn c wx)) = connected (hook w)
            /\ dials (close_conn c wx) = (dials w ++ [Endpoint (cfg (hook w))])%list
            /\ (forall c', (c' < c)%nat -> conns (close_conn c wx) !! c' = conns w !! c')
            /\ conn (hook (close_conn c wx)) = Some c
            /\ conns (close_conn c wx) !! c
               = Some (mkConn (Endpoint (cfg (hook w))) true fs)
            /\ write_succeeds true (close_conn c wx) = false).
  { intros fs wx (L & O & A) Hex Hcx Hfx Hdx.
    pose proof (A _ Hk1) as Hkx. simpl in Hkx.
    split_and!; simpl; try congruence.
    - intros c' Hlt. rewrite list_lookup_alter_ne by lia. rewrite O by lia.
      rewrite D1. apply lookup_app_l. exact Hlt.
    - rewrite list_lookup_alter_eq, Hkx. reflexivity.
    - unfold write_succeeds. simpl. rewrite Hex, list_lookup_alter_eq, Hkx. reflexivity. }
  destruct e2 as [err |]; simpl.
  - intros [= <- <-].
    rewrite app_nil_r in A1.
    destruct (Hclosed _ w2 A1) as (C1 & C2 & C3 & C4 & C5 & C6); try congruence.
    split_and!; try done. intros _. split_and!; try done.
    eexists. split; [exact C5 |]. left. exists err. split; [reflexivity |].
    fold c. rewrite D6. reflexivity.
  - assert (He2 : encoder (hook w2) = Some c) by congruence.
    destruct (registerAgent s_reg w2) as [[w4 e4] |] eqn:Hreg; [| discriminate].
    destruct (registerAgent_effect _ c _ _ _ He2 Hreg)
      as (R1 & R2 & R3 & R4 & R5 & R6 & R7 & A2 & R8).
    destruct e4 as [err |]; simpl; [| discriminate].
    intros [= <- <-].
    pose proof (appended_trans _ _ _ _ _ _ A1 A2) as A.
    destruct (Hclosed _ w4 A) as (C1 & C2 & C3 & C4 & C5 & C6); try congruence.
    split_and!; try done. intros _. split_and!; try done.
    eexists. split; [exact C5 |]. right. by exists err.
Qed.

End Handshake.


Lemma connect_success_witness :
  connected (hook world_connected) = true
  /\ conns world_connected !! 0%nat
     = Some (mkConn "127.0.0.1:9090" false (handshake_frames 1 2 true sample_hook)).
Proof.
  assert (Hconn : connect true (answered 1 "{protocolVersion:2024-11-05}") true
                    (answered 2 "{content:[{type:text,text:{agent_id:A-1}}]}")
                    (init_world sample_hook 0)
                  = Some (world_connected, None)) by (vm_compute; reflexivity).
  destruct (@connect_success sample_json _ _ _ _ _ _ Hconn)
    as (_ & Hc & _ & _ & _ & _ & _ & _ & _ & Hwire).
  split; [exact Hc | exact Hwire].
Defined.

Lemma connect_failure_witness :
  connected (hook world_connect_failed) = false
  /\ write_succeeds true world_connect_failed = false.
Proof.
  assert (Hconn : connect true write_fails true write_fails (init_world sample_hook 0)
                  = Some (world_connect_failed, Some (ErrInitialize ErrEncode)))
    by (vm_compute; reflexivity).
  destruct (@connect_failure sample_json _ _ _ _ _ _ _ Hconn)
    as (Hc & _ & _ & _ & Hdial).
  split; [exact Hc |]. apply Hdial. reflexivity.
Defined.

(** ** After shutdown *)

(** X10: once [Stop] has run, an RPC does not hang: [Stop] forgets the
    connection but leaves the encoder, so the write hits the closed
    connection and [call] returns the write error at once, under any
    schedule.  The id is consumed, nothing is written, and the slot it had
    installed is removed again. *)
Theorem call_after_Stop_fails_fast (method : string) (params : Params)
    (s : schedule) (c : nat) (w : World) :
  conn (hook w) = Some c ->
  encoder (hook w) = Some c ->
  exists w',
    call method params s (Stop w) = Some (w', inr ErrEncode)
    /\ conns w' = conns (Stop w)
    /\ requestID (hook w') = wrap_int64 (requestID (hook w) + 1)
    /\ pending (hook w')
       = delete (wrap_int64 (requestID (hook w) + 1)) (pending (hook w))
    /\ connected (hook w') = false.
Proof.
  intros Hconn Henc.
  assert (Hclosed : forall k, conns (Stop w) !! c = Some k -> conn_closed k = true).
  { unfold Stop. rewrite Hconn. simpl. intros k. rewrite list_lookup_alter_eq.
    destruct (conns w !! c); simpl; [| discriminate]. by intros [= <-]. }
  assert (Henc' : encoder (hook (Stop w)) = Some c).
  { unfold Stop. rewrite Hconn. simpl. exact Henc. }
  assert (Hreq : requestID (hook (Stop w)) = requestID (hook w)
                 /\ pending (hook (Stop w)) = pending (hook w)
                 /\ connected (hook (Stop w)) = false).
  { unfold Stop. rewrite Hconn. by simpl. }
  destruct Hreq as (Hr & Hp & Hf).
  generalize dependent (Stop w). intros w0 Hclosed Henc' Hr Hp Hf.
  unfold call, call_send, encode. simpl. rewrite Henc'. simpl.
  destruct (conns w0 !! c) as [k |] eqn:Hk.
  - rewrite (Hclosed k eq_refl), andb_false_r. eexists. split; [reflexivity |].
    simpl. rewrite Hr, Hp, delete_insert_eq. by split_and!.
  - eexists. split; [reflexivity |].
    simpl. rewrite Hr, Hp, delete_insert_eq. by split_and!.
Qed.

Lemma call_after_Stop_fails_fast_witness :
  exists w',
    call "tools/call" (callTool_params "report_status" status_args)
         tool_error_schedule (Stop world_connected)
    = Some (w', inr ErrEncode)
    /\ conns w' = conns (Stop world_connected)
    /\ requestID (hook w') = wrap_int64 (requestID (hook world_connected) + 1)
    /\ pending (hook w')
       = delete (wrap_int64 (requestID (hook world_connected) + 1))
                (pending (hook world_connected))
    /\ connected (hook w') = false.
Proof.
  apply (call_after_Stop_fails_fast _ _ _ 0%nat); vm_compute; reflexivity.
Defined.

(** X11: [Stop] is idempotent: a second [Stop] changes neither the hook nor
    any connection nor any channel; it only logs again. *)
Theorem Stop_idempotent (w : World) :
  hook (Stop (Stop w)) = hook (Stop w)
  /\ conns (Stop (Stop w)) = conns (Stop w)
  /\ chans (Stop (Stop w)) = chans (Stop w)
  /\ dials (Stop (Stop w)) = dials (Stop w)
  /\ logged (Stop (Stop w))
     = (logged (Stop w) ++ [mkLog LevelInfo "Tempotown hook stopped" []])%list.
Proof.
  unfold Stop. destruct (conn (hook w)) eqn:Hconn; simpl; rewrite ?Hconn; simpl;
    by split_and!.
Qed.

(** ** Construction and the poll ticker *)



(** ** More on the feedback channel *)


Section FeedbackMore.
Context `{EncodingJSON}.

Lemma feedback_read_offers (items : list FeedbackPayload) (rest : list Action)
    (w : World) :
  feedback_read ((ActOffer <$> items) ++ rest) w
  = feedback_read rest (enqueue_items items w)
  /\ run ((ActOffer <$> items) ++ rest) w = run rest (enqueue_items items w).
Proof.
  revert w. induction items as [| item items IH]; intros w; simpl; [by split |].
  apply IH.
Qed.

Lemma feedback_read_drain (l : list FeedbackPayload) (w : World) :
  chan_buf (feedbackCh (hook w)) = l ->
  feedback_read (replicate (length l) ActFeedbackRecv) w = l
  /\ exists w', run (replicate (length l) ActFeedbackRecv) w = Some w'
       /\ chan_buf (feedbackCh (hook w')) = []
       /\ logged w' = logged w.
Proof.
  revert w. induction l as [| x l IH]; intros w Hbuf; simpl.
  - split; [reflexivity |]. exists w. by split_and!.
  - unfold feedback_recv, try_recv. rewrite Hbuf. simpl.
    destruct (IH (with_hook (set_feedbackCh
                    (mkChan l (chan_cap (feedbackCh (hook w)))
                            (chan_closed (feedbackCh (hook w))))) w)) as [Hread Hrun];
      [reflexivity |].
    rewrite Hread. split; [reflexivity |]. exact Hrun.
Qed.

(** X14: the feedback channel is first in, first out and loses nothing
    while there is room.  On an empty channel, a batch no longer than the
    capacity, once offered, is read back by the host complete and in order,
    no warning is logged, and the channel is empty again. *)
Theorem feedback_round_trip (items : list FeedbackPayload) (w : World) :
  chan_buf (feedbackCh (hook w)) = [] ->
  (length items <= chan_cap (feedbackCh (hook w)))%nat ->
  feedback_read ((ActOffer <$> items) ++ replicate (length items) ActFeedbackRecv) w
  = items
  /\ exists w',
       run ((ActOffer <$> items) ++ replicate (length items) ActFeedbackRecv) w = Some w'
       /\ chan_buf (feedbackCh (hook w')) = []
       /\ logged w' = logged w.
Proof.
  intros Hempty Hroom.
  destruct (feedback_read_offers items (replicate (length items) ActFeedbackRecv) w)
    as [-> ->].
  destruct (enqueue_items_spec items w) as (Hbuf & Hlog & _).
  simpl in Hbuf, Hlog. rewrite Hempty in Hbuf, Hlog. simpl in Hbuf, Hlog.
  rewrite Nat.sub_0_r in Hbuf, Hlog.
  rewrite take_ge in Hbuf by lia. rewrite drop_ge in Hlog by lia.
  simpl in Hlog. rewrite app_nil_r in Hlog.
  destruct (feedback_read_drain items (enqueue_items items w) Hbuf) as [Hread Hrun].
  split; [exact Hread |].
  destruct Hrun as (w' & Hr & Hb & Hl). exists w'. split_and!; congruence.
Qed.


End FeedbackMore.

Lemma feedback_round_trip_witness :
  feedback_read ((ActOffer <$> [item_m1; item_m2])
                 ++ replicate 2 ActFeedbackRecv) (init_world sample_hook 0)
  = [item_m1; item_m2].
Proof.
  refine (proj1 (@feedback_round_trip sample_json [item_m1; item_m2]
                   (init_world sample_hook 0) eq_refl _)).
  simpl. lia.
Defined.


(** ** While the flag is down *)

Section Disconnected.
Context `{EncodingJSON}.

(** X16: while the connected flag is down no status report and no poll
    goes out: an event starts no goroutine and a poll tick leaves the world
    as it is, taking no id and writing nothing.  The flag is down on a new
    hook, after [Stop], and once the supervisor has noticed a lost
    connection. *)
Theorem disconnected_sends_nothing (w : World) :
  connected (hook w) = false ->
  (forall event, handleEvent event (hook w) = None)
  /\ (forall status progress details,
        reportStatus status progress details (hook w) = None)
  /\ (forall s, pollFeedbackLoop_tick s w = Some w)
  /\ connected (hook (Stop w)) = false
  /\ (forall w0, connected (hook (Stop w0)) = false
                 /\ connected (hook (connection_lost w0)) = false)
  /\ (forall c h, NewTempotownHook c = Some h -> connected h = false).
Proof.
  intros Hdown. split_and!.
  - intros event. unfold handleEvent. by rewrite Hdown.
  - intros status progress details. unfold reportStatus. by rewrite Hdown.
  - intros s. unfold pollFeedbackLoop_tick. by rewrite Hdown.
  - unfold Stop. by destruct (conn (hook w)).
  - intros w0. split; [unfold Stop; by destruct (conn (hook w0)) | reflexivity].
  - intros c h. unfold NewTempotownHook.
    destruct (decide (Endpoint c = EmptyString)); [discriminate |]. by intros [= <-].
Qed.

(** ** The loop of [Start] *)

Lemma Stop_stopped (w : World) :
  connected (hook (Stop w)) = false
  /\ conn (hook (Stop w)) = None
  /\ last (logged (Stop w)) = Some (mkLog LevelInfo "Tempotown hook stopped" []).
Proof.
  unfold Stop. destruct (conn (hook w)) eqn:Hconn; simpl;
    split_and!; try done; apply last_snoc.
Qed.

(** X17: [Start]'s loop returns only through [Stop], on a done context or a
    closed event channel: when it has returned the flag is down, the
    connection forgotten, and the stop is the last thing logged.  Every
    goroutine it started on the way is a [report_status] call, at most one
    per event received.  Without a message subscriber [Start] ends the same
    way once the context is done. *)
Theorem Start_loop_returns_stopped (turns : list start_turn) (w w' : World)
    (os : list spawned) :
  Start_loop turns w = Some (w', os, Exit) ->
  connected (hook w') = false
  /\ conn (hook w') = None
  /\ last (logged w') = Some (mkLog LevelInfo "Tempotown hook stopped" [])
  /\ Forall (fun g => go_name g = "report_status") os
  /\ (length os <= length (events_of turns))%nat
  /\ (forall w0 w0', Start_unsubscribed w0 = Some w0' ->
        connected (hook w0') = false /\ conn (hook w0') = None).
Proof.
  intros Hloop.
  assert (Hunsub : forall w0 w0', Start_unsubscribed w0 = Some w0' ->
            connected (hook w0') = false /\ conn (hook w0') = None).
  { intros w0 w0'. unfold Start_unsubscribed. simpl.
    destruct (ctx w0); [| discriminate]. intros [= <-].
    destruct (Stop_stopped (write_log LevelWarn
                "no message subscriber available, status reporting disabled" [] w0))
      as (S1 & S2 & _). by split. }
  cut (connected (hook w') = false
       /\ conn (hook w') = None
       /\ last (logged w') = Some (mkLog LevelInfo "Tempotown hook stopped" [])
       /\ Forall (fun g => go_name g = "report_status") os
       /\ (length os <= length (events_of turns))%nat).
  { intros (A1 & A2 & A3 & A4 & A5). by split_and!. }
  clear Hunsub. revert Hloop.
  revert w w' os. induction turns as [| [acts k] turns IH]; intros w w' os; simpl;
    [discriminate |].
  destruct (run acts w) as [w1 |]; [| discriminate].
  destruct k as [| event |]; simpl.
  - destruct (ctx w1); [| discriminate]. intros [= <- <-].
    destruct (Stop_stopped w1) as (S1 & S2 & S3).
    split_and!; try done. simpl. lia.
  - destruct (Start_loop turns w1) as [[[w3 os3] st] |] eqn:Hloop; [| discriminate].
    intros [= <- <- ->].
    destruct (IH _ _ _ Hloop) as (I1 & I2 & I3 & I4 & I5).
    split_and!; try done.
    + apply Forall_app. split; [| exact I4].
      unfold handleEvent, reportStatus.
      repeat match goal with
             | |- context [match ?x with _ => _ end] => destruct x
             end; simpl; repeat constructor.
    + rewrite length_app. unfold events_of in *. simpl.
      destruct (handleEvent event (hook w1)); simpl; lia.
  - intros [= <- <-].
    destruct (Stop_stopped w1) as (S1 & S2 & S3).
    split_and!; try done. simpl. lia.
Qed.

(** ** What [callTool] hands back *)

Lemma call_response_has_no_error (method : string) (params : Params) (s : schedule)
    (w w' : World) (resp : Response) :
  call method params s w = Some (w', inl resp) -> resp_Error resp = None.
Proof.
  unfold call, call_send. simpl.
  destruct (encoder (hook w)); [| discriminate].
  destruct (encode _ _ _ _) as [w2 ok]. destruct ok; [| discriminate].
  destruct (fires s); simpl; unfold try_recv; intros Hsel; step_cases; congruence.
Qed.

(** X18: [callTool] returns a text only for a response that carries no
    error object and whose result decodes and is not flagged as an error;
    the text is then the first content block's, whatever its type, and the
    empty string when there is no block.  Any failure of the underlying
    [call] is handed on unchanged. *)
Theorem callTool_text_only_from_clean_result (name : string)
    (args : gmap string any) (s : schedule) (w w' : World) :
  (forall text, callTool name args s w = Some (w', inl text) ->
     exists resp result,
       call "tools/call" (callTool_params name args) s w = Some (w', inl resp)
       /\ resp_Error resp = None
       /\ unmarshal_ToolCallResult (resp_Result resp) = Some result
       /\ result_IsError result = false
       /\ text = match result_Content result with
                 | c :: _ => content_Text c
                 | [] => EmptyString
                 end)
  /\ (forall e, call "tools/call" (callTool_params name args) s w = Some (w', inr e) ->
        callTool name args s w = Some (w', inr e))
  /\ (forall resp, call "tools/call" (callTool_params name args) s w = Some (w', inl resp) ->
        unmarshal_ToolCallResult (resp_Result resp) = None ->
        callTool name args s w = Some (w', inr ErrUnmarshalResult)).
Proof.
  unfold callTool. split_and!.
  - intros text.
    destruct (call "tools/call" _ s w) as [[wa r] |] eqn:Hcall; [| discriminate].
    intros [= <- Hfin]. destruct r as [resp | e]; [| discriminate].
    simpl in Hfin.
    destruct (unmarshal_ToolCallResult (resp_Result resp)) as [result |] eqn:Hdec;
      [| discriminate].
    exists resp, result.
    split; [reflexivity |].
    split; [by eapply call_response_has_no_error |].
    split; [exact Hdec |].
    destruct (result_IsError result); destruct (result_Content result);
      try discriminate; split; congruence.
  - intros e ->. reflexivity.
  - intros resp -> Hnone. simpl. by rewrite Hnone.
Qed.

End Disconnected.

Lemma disconnected_sends_nothing_witness :
  handleEvent user_created (hook (Stop world_connected)) = None
  /\ pollFeedbackLoop_tick tool_error_schedule (Stop world_connected)
     = Some (Stop world_connected).
Proof.
  destruct (@disconnected_sends_nothing sample_json (Stop world_connected))
    as (Hev & _ & Htick & _).
  - vm_compute. reflexivity.
  - split; [apply Hev | apply Htick].
Defined.

Lemma Start_loop_returns_stopped_witness :
  exists w' os,
    Start_loop start_turns world_connected = Some (w', os, Exit)
    /\ connected (hook w') = false
    /\ length os = 1%nat.
Proof.
  destruct (Start_loop start_turns world_connected) as [[[w' os] st] |] eqn:Hloop;
    [| vm_compute in Hloop; discriminate].
  assert (Hst : st = Exit /\ length os = 1%nat).
  { vm_compute in Hloop. injection Hloop as _ <- <-. by split. }
  destruct Hst as [-> Hlen].
  exists w', os. split; [reflexivity |].
  destruct (@Start_loop_returns_stopped sample_json _ _ _ _ Hloop) as (Hc & _).
  split; [exact Hc | exact Hlen].
Defined.

(** ** Whole operations and the pending map *)

Lemma slots_ready_same (w w' : World) :
  pending (hook w') = pending (hook w) -> chans w' = chans w ->
  slots_ready w -> slots_ready w'.
Proof. unfold slots_ready. by intros -> ->. Qed.

Lemma enqueue_items_slots (items : list FeedbackPayload) (w : World) :
  pending (hook (enqueue_items items w)) = pending (hook w)
  /\ chans (enqueue_items items w) = chans w.
Proof.
  revert w. induction items as [| item items IH]; intros w; simpl; [by split |].
  destruct (IH (offer_item item w)) as [-> ->].
  unfold offer_item. by destruct (try_send _ _).
Qed.

Section NoSlotLeft.
Context `{EncodingJSON}.

Lemma registerAgent_finish_slots (r : string + error) (w : World) :
  pending (hook (fst (registerAgent_finish r w))) = pending (hook w)
  /\ chans (fst (registerAgent_finish r w)) = chans w.
Proof.
  unfold registerAgent_finish. destruct r as [text | e]; [| by split].
  destruct (unmarshal_AgentID text) as [a |]; [destruct (decide (a = EmptyString)) |];
    by split.
Qed.

Lemma pollFeedback_finish_slots (r : string + error) (w : World) :
  pending (hook (pollFeedback_finish r w)) = pending (hook w)
  /\ chans (pollFeedback_finish r w) = chans w.
Proof.
  unfold pollFeedback_finish. destruct r as [text | e]; [| by split].
  destruct (unmarshal_Items text); [apply enqueue_items_slots | by split].
Qed.

(** X19: whole operations leave no slot behind.  On a hook whose slots are
    ready, a [connect] that returns, with or without error, and a poll that
    returns, whatever the peer did meanwhile, have added nothing to the
    pending map, and every slot still in it is ready. *)
Theorem operations_leave_no_slot (w w' : World) :
  slots_ready w ->
  (forall dial_ok s_init notify_ok s_reg e,
      connect dial_ok s_init notify_ok s_reg w = Some (w', e) ->
      pending (hook w') ⊆ pending (hook w) /\ slots_ready w')
  /\ (forall s, pollFeedback s w = Some w' ->
        pending (hook w') ⊆ pending (hook w) /\ slots_ready w').
Proof.
  intros Hok. split.
  - intros dial_ok s_init notify_ok s_reg e. unfold connect.
    destruct dial_ok.
    2:{ simpl. intros [= <- _]. by split. }
    destruct (connect_dial_ok w)
      as (Hd & _ & _ & D3 & _ & _ & _ & _ & _ & D9 & D10).
    rewrite Hd. set (w1 := fst (connect_dial true w)) in *. rewrite D3.
    assert (Hok1 : slots_ready w1) by (by apply (slots_ready_same w)).
    unfold initialize.
    destruct (call "initialize" initialize_params s_init w1) as [[wa r] |] eqn:Hcall;
      [| discriminate].
    destruct (call_slot_balance _ _ _ _ _ _ Hok1 Hcall) as (_ & Hsub1 & Hoka).
    rewrite D9 in Hsub1.
    assert (Hfin : forall x, pending (hook (fst (initialize_finish x notify_ok wa)))
                             = pending (hook wa)
                             /\ chans (fst (initialize_finish x notify_ok wa)) = chans wa).
    { intros x. destruct x as [resp | err]; simpl; [| by split].
      destruct (sendNotification_effect "initialized" ParamsNil notify_ok wa)
        as (-> & -> & _). by split. }
    destruct (Hfin r) as [Hp2 Hc2].
    destruct (initialize_finish r notify_ok wa) as [w2 e2]. simpl in Hp2, Hc2.
    assert (Hok2 : slots_ready w2) by (by apply (slots_ready_same wa)).
    destruct e2 as [err |]; simpl.
    + intros [= <- _]. split; [simpl; by rewrite Hp2 |].
      by apply (slots_ready_same w2).
    + unfold registerAgent, callTool.
      destruct (call "tools/call" _ s_reg w2) as [[wb rb] |] eqn:Hcall2; [| discriminate].
      destruct (call_slot_balance _ _ _ _ _ _ Hok2 Hcall2) as (_ & Hsub2 & Hokb).
      destruct (registerAgent_finish_slots (callTool_finish rb) wb) as [Hp4 Hc4].
      destruct (registerAgent_finish (callTool_finish rb) wb) as [w4 e4].
      simpl in Hp4, Hc4.
      assert (Hsub : pending (hook w4) ⊆ pending (hook w)).
      { rewrite Hp4. etrans; [exact Hsub2 |]. by rewrite Hp2. }
      assert (Hok4 : slots_ready w4) by (by apply (slots_ready_same wb)).
      destruct e4 as [err |]; simpl; intros [= <- _]; (split; [exact Hsub |]);
        by apply (slots_ready_same w4).
  - intros s. unfold pollFeedback, callTool.
    destruct (call "tools/call" _ s w) as [[wa r] |] eqn:Hcall; [| discriminate].
    destruct (call_slot_balance _ _ _ _ _ _ Hok Hcall) as (_ & Hsub & Hoka).
    intros [= <-].
    destruct (pollFeedback_finish_slots (callTool_finish r) wa) as [Hp Hc].
    split; [by rewrite Hp | by apply (slots_ready_same wa)].
Qed.

End NoSlotLeft.

Lemma operations_leave_no_slot_witness :
  pending (hook world_connected) ⊆ pending (hook (init_world sample_hook 0))
  /\ slots_ready world_connected.
Proof.
  assert (Hconn : connect true (answered 1 "{protocolVersion:2024-11-05}") true
                    (answered 2 "{content:[{type:text,text:{agent_id:A-1}}]}")
                    (init_world sample_hook 0)
                  = Some (world_connected, None)) by (vm_compute; reflexivity).
  assert (Hok : slots_ready (init_world sample_hook 0)) by apply slots_ok_empty.
  exact (proj1 (@operations_leave_no_slot sample_json _ world_connected Hok)
               _ _ _ _ _ Hconn).
Defined.

(** ** Timeouts and cancellation of a whole call *)

(** X20: a [call] fails with the timeout error only when its timer case
    fired, which takes at least 30 seconds of waiting after the write; and
    the context error it fails with is the context's own, the one it carried
    before the call or the one raised while the call waited. *)
Theorem call_timeout_needs_thirty_seconds (method : string) (params : Params)
    (s : schedule) (w w' : World) :
  (call method params s w = Some (w', inr ErrRequestTimeout) ->
     fires s = CaseTimer /\ 30 * Second <= elapsed (env s))
  /\ (forall e, call method params s w = Some (w', inr (ErrContext e)) ->
        fires s = CaseCtxDone
        /\ (ctx w = Some e \/ (ctx w = None /\ cancelled (env s) = Some e))).
Proof.
  unfold call, call_send. simpl.
  destruct (encoder (hook w)) as [c |] eqn:Henc; [| by split; [| intros e]].
  set (w1' := with_hook _ _).
  destruct (encode_effect c (FrameRequest "2.0" (wrap_int64 (requestID (hook w) + 1))
                               method params) (io_ok s) w1' Henc)
    as (_ & _ & _ & _ & _ & Hnow & Hctx & _).
  destruct (encode c _ (io_ok s) w1') as [w2 ok]. simpl in Hnow, Hctx.
  destruct ok; [| by split; [| intros e]].
  assert (Hnow3 : now (while_waiting (env s) w2) = now w2 + elapsed (env s)).
  { unfold while_waiting. destruct (readLoop_effect (arrivals (env s)) w2)
      as (_ & _ & _ & N & _). simpl.
    destruct (ctx (fst (readLoop (arrivals (env s)) w2))), (cancelled (env s)); simpl;
      by rewrite N. }
  assert (Hctx3 : forall e, ctx (while_waiting (env s) w2) = Some e ->
            ctx w = Some e \/ (ctx w = None /\ cancelled (env s) = Some e)).
  { intros e. unfold while_waiting.
    destruct (readLoop_effect (arrivals (env s)) w2) as (_ & _ & _ & _ & X & _).
    simpl. rewrite X, Hctx. simpl.
    destruct (ctx w) as [e0 |] eqn:Hcw; simpl; rewrite ?X, ?Hctx, ?Hcw;
      [intros [= <-]; by left |].
    destruct (cancelled (env s)); simpl; rewrite ?X, ?Hctx, ?Hcw;
      [intros [= <-]; by right | discriminate]. }
  split.
  - destruct (fires s); simpl; unfold try_recv; intros Hsel; step_cases; try discriminate.
    split; [reflexivity |].
    match goal with Hle : (_ <=? _) = true |- _ => apply Z.leb_le in Hle; rewrite Hnow3 in Hle end.
    unfold CallTimeout in *. lia.
  - intros e. destruct (fires s); simpl; unfold try_recv; intros Hsel.
    + destruct (ctx (while_waiting (env s) w2)) as [e0 |] eqn:Hc; [| discriminate].
      injection Hsel as _ <-. split; [reflexivity | by apply Hctx3].
    + step_cases; discriminate.
    + step_cases; discriminate.
Qed.
